(** * jpcorpreg: corporate-registry loader

    A shallow embedding of [jpcorpreg/client.py], [jpcorpreg/writer.py] and
    [jpcorpreg/load.py], and the properties of the fetch-resolve-stream-convert
    pipeline proved about it.

    - A Python [str] is the list of its code points.
    - [re.search] is a backtracking matcher over the handful of regex forms
      the three modules use; alternatives are listed in the order the
      backtracking engine would try them.
    - Exceptions are values of [exn]; a call that may raise returns a
      [result].  Code that touches the disk or the site runs in a
      state-and-error monad over [world], which holds the remote site, the
      temporary files and the logs of files created and removed.
    - [pyarrow] and [pandas] are modelled as far as the options the code
      passes to them decide the outcome: column names, column types, and
      the partitioning and file-size limits of the dataset writer.
    - [str.capitalize] and [load_config("header")] are parameters.

    The definitions come first, then the vocabulary of the statements and
    some sample pages, then the properties. *)

From stdpp Require Import base numbers list strings gmap.
From Stdlib Require Import NArith Lia.

#[local] Set Warnings "-register-all".

Local Open Scope N_scope.

(** ** Text *)

(** A Python [str]: its code points. *)
Abbreviation pystr := (list N).

(** Source literals are written as Rocq strings, whose bytes are the UTF-8
    encoding of the text; [u] decodes them to code points. *)
Fixpoint utf8_decode (bs : list N) : pystr :=
  match bs with
  | [] => []
  | b0 :: r0 =>
    if b0 <? 0x80 then b0 :: utf8_decode r0
    else match r0 with
    | [] => [b0]
    | b1 :: r1 =>
      if b0 <? 0xE0 then
        N.lor (N.shiftl (N.land b0 0x1F) 6) (N.land b1 0x3F) :: utf8_decode r1
      else match r1 with
      | [] => [b0; b1]
      | b2 :: r2 =>
        if b0 <? 0xF0 then
          N.lor (N.shiftl (N.land b0 0x0F) 12)
            (N.lor (N.shiftl (N.land b1 0x3F) 6) (N.land b2 0x3F))
          :: utf8_decode r2
        else match r2 with
        | [] => [b0; b1; b2]
        | b3 :: r3 =>
          N.lor (N.shiftl (N.land b0 0x07) 18)
            (N.lor (N.shiftl (N.land b1 0x3F) 12)
               (N.lor (N.shiftl (N.land b2 0x3F) 6) (N.land b3 0x3F)))
          :: utf8_decode r3
        end
      end
    end
  end.

Definition u (s : string) : pystr :=
  utf8_decode (map Ascii.N_of_ascii (String.list_ascii_of_string s)).

(** Unicode decimal digits (general category Nd, Unicode 14): the code point
    of the zero of each block of ten.  [\d] in a [str] pattern and [int()]
    both go by this table. *)
Definition nd_zeros : list N :=
  [0x30; 0x660; 0x6f0; 0x7c0; 0x966; 0x9e6; 0xa66; 0xae6; 0xb66; 0xbe6;
   0xc66; 0xce6; 0xd66; 0xde6; 0xe50; 0xed0; 0xf20; 0x1040; 0x1090; 0x17e0;
   0x1810; 0x1946; 0x19d0; 0x1a80; 0x1a90; 0x1b50; 0x1bb0; 0x1c40; 0x1c50;
   0xa620; 0xa8d0; 0xa900; 0xa9d0; 0xa9f0; 0xaa50; 0xabf0; 0xff10; 0x104a0;
   0x10d30; 0x11066; 0x110f0; 0x11136; 0x111d0; 0x112f0; 0x11450; 0x114d0;
   0x11650; 0x116c0; 0x11730; 0x118e0; 0x11950; 0x11c50; 0x11d50; 0x11da0;
   0x16a60; 0x16ac0; 0x16b50; 0x1d7ce; 0x1d7d8; 0x1d7e2; 0x1d7ec; 0x1d7f6;
   0x1e140; 0x1e2f0; 0x1e950; 0x1fbf0].

Definition digit_value (c : N) : option N :=
  match List.find (fun z => (z <=? c) && (c <? z + 10)) nd_zeros with
  | Some z => Some (c - z)
  | None => None
  end.

Definition is_digit (c : N) : bool :=
  match digit_value c with Some _ => true | None => false end.

(** [str.isspace] code points, which [str.strip] removes at both ends. *)
Definition is_space (c : N) : bool :=
  ((0x9 <=? c) && (c <=? 0xd)) || ((0x1c <=? c) && (c <=? 0x20))
  || (c =? 0x85) || (c =? 0xa0) || (c =? 0x1680)
  || ((0x2000 <=? c) && (c <=? 0x200a))
  || (c =? 0x2028) || (c =? 0x2029) || (c =? 0x202f) || (c =? 0x205f)
  || (c =? 0x3000).

Fixpoint lstrip (s : pystr) : pystr :=
  match s with
  | c :: s' => if is_space c then lstrip s' else s
  | [] => []
  end.

Definition strip (s : pystr) : pystr := rev (lstrip (rev (lstrip s))).

(** ** Exceptions *)

Inductive exn : Type :=
| ValueError (msg : pystr)
| SystemExit (msg : pystr)
| BadZipFile (msg : pystr)
| TypeError
| AttributeError
| IndexError
| KeyError (key : pystr)
| OSError
| ArrowInvalid.

Inductive result (A : Type) : Type :=
| Ok (a : A)
| Raise (e : exn).
Arguments Ok {A} a.
Arguments Raise {A} e.

(** [SystemExit] ends the process unless a caller goes out of its way to
    catch it; every other exception is an ordinary, catchable error. *)
Definition aborts_process (e : exn) : bool :=
  match e with SystemExit _ => true | _ => false end.

Definition recoverable (e : exn) : bool := negb (aborts_process e).

(** ** Integers as text *)

(** [int(s)] for a string of decimal digits.  Any other string is given
    [None]: the patterns below only ever pass digit runs.  Integers are
    unbounded, as in the language; the cap an interpreter may put on the
    number of digits of a decimal conversion ([sys.set_int_max_str_digits])
    is a setting of the run, not of this code, and is left out. *)
Fixpoint int_acc (acc : N) (s : pystr) : option N :=
  match s with
  | [] => Some acc
  | c :: s' =>
    match digit_value c with
    | Some v => int_acc (10 * acc + v) s'
    | None => None
    end
  end.

Definition py_int (s : pystr) : option N :=
  match s with [] => None | _ => int_acc 0 s end.

(** Decimal digits of a natural number, most significant first. *)
Fixpoint dec_digits (fuel : nat) (n : N) (acc : pystr) : pystr :=
  match fuel with
  | O => acc
  | S f =>
    let acc' := (0x30 + n mod 10) :: acc in
    if n <? 10 then acc' else dec_digits f (n / 10) acc'
  end.

Definition py_str_int (n : N) : pystr :=
  dec_digits (S (N.to_nat (N.log2 n))) n [].

(** [f"{n:0wd}"] for [n >= 0]: zeros on the left up to width [w], never a
    truncation. *)
Definition format_0d (w : nat) (n : N) : pystr :=
  let ds := py_str_int n in
  replicate (w - length ds)%nat 0x30 ++ ds.

(** ** Regular expressions *)

Inductive regex : Type :=
| Eps
| Lit (c : N)
| LitI (c : N)
| Digit
| Digits1
| Alt (r1 r2 : regex)
| Seq (r1 r2 : regex)
| Group (r : regex)
| Dollar.

Definition cat (rs : list regex) : regex := foldr Seq Eps rs.

Definition lits (s : pystr) : list regex := map Lit s.

(** Characters a pattern letter matches under [re.IGNORECASE], for the
    letters of [\.csv$]. *)
Definition ignorecase_eq (p c : N) : bool :=
  (c =? p)
  || (if p =? 0x63 then c =? 0x43
      else if p =? 0x73 then (c =? 0x53) || (c =? 0x17f)
      else if p =? 0x76 then c =? 0x56
      else false).

(** The remainders a greedy [\d+] can leave, longest run first. *)
Fixpoint digits1 (s : pystr) : list pystr :=
  match s with
  | c :: s' => if is_digit c then digits1 s' ++ [s'] else []
  | [] => []
  end.

(** [rmatch r s gs]: every way [r] matches a prefix of [s], in the order
    backtracking tries them, as (rest of the string, groups closed so
    far). *)
Fixpoint rmatch (r : regex) (s : pystr) (gs : list pystr)
  : list (pystr * list pystr) :=
  match r with
  | Eps => [(s, gs)]
  | Lit c =>
    match s with
    | x :: s' => if x =? c then [(s', gs)] else []
    | [] => []
    end
  | LitI c =>
    match s with
    | x :: s' => if ignorecase_eq c x then [(s', gs)] else []
    | [] => []
    end
  | Digit =>
    match s with
    | x :: s' => if is_digit x then [(s', gs)] else []
    | [] => []
    end
  | Digits1 => map (fun s' => (s', gs)) (digits1 s)
  | Alt r1 r2 => rmatch r1 s gs ++ rmatch r2 s gs
  | Seq r1 r2 =>
    flat_map (fun m => rmatch r2 (fst m) (snd m)) (rmatch r1 s gs)
  | Group r1 =>
    map (fun m => (fst m, snd m ++ [take (length s - length (fst m)) s]))
        (rmatch r1 s gs)
  | Dollar =>
    match s with
    | [] => [(s, gs)]
    | [c] => if c =? 0x0a then [(s, gs)] else []
    | _ => []
    end
  end.

(** [re.search(r, s)]: the first match at the leftmost position that has
    one, as the list [group(0); group(1); ...]. *)
Fixpoint re_search (r : regex) (s : pystr) : option (list pystr) :=
  match rmatch r s [] with
  | m :: _ => Some (take (length s - length (fst m)) s :: snd m)
  | [] =>
    match s with
    | [] => None
    | _ :: s' => re_search r s'
    end
  end.

Definition group (i : nat) (m : list pystr) : pystr := nth i m [].

(** ** Era dates ([client.py], [_convert_japanese_date]) *)

Definition gan : N := 0x5143.     (* first-year glyph *)
Definition nen : N := 0x5e74.     (* year *)
Definition getsu : N := 0x6708.   (* month *)
Definition nichi : N := 0x65e5.   (* day *)
Definition reiwa : pystr := [0x4ee4; 0x548c].
Definition heisei : pystr := [0x5e73; 0x6210].

(** [<era>(\d+|元)年(\d+)月(\d+)日] *)
Definition era_re (era : pystr) : regex :=
  cat (lits era ++
       [Group (Alt Digits1 (Lit gan)); Lit nen;
        Group Digits1; Lit getsu;
        Group Digits1; Lit nichi]).

Definition int_or_raise (s : pystr) : result N :=
  match py_int s with
  | Some n => Ok n
  | None => Raise (ValueError (u "invalid literal for int()"))
  end.

Definition era_to_ymd (offset : N) (m : list pystr) : result (option pystr) :=
  match (if decide (group 1 m = [gan]) then Ok 1 else int_or_raise (group 1 m)) with
  | Raise e => Raise e
  | Ok year_val =>
    match int_or_raise (group 2 m) with
    | Raise e => Raise e
    | Ok mm =>
      match int_or_raise (group 3 m) with
      | Raise e => Raise e
      | Ok dd =>
        Ok (Some (format_0d 4 (year_val + offset) ++ format_0d 2 mm ++ format_0d 2 dd))
      end
    end
  end.

Definition _convert_japanese_date (raw_date : pystr) : result (option pystr) :=
  match re_search (era_re reiwa) raw_date with
  | Some match_reiwa => era_to_ymd 2018 match_reiwa
  | None =>
    match re_search (era_re heisei) raw_date with
    | Some match_heisei => era_to_ymd 1988 match_heisei
    | None => Ok None
    end
  end.

(** ** Markup ([bs4]) *)

(** A parsed element or a run of text.  [bs4] holds the [class] attribute
    as a list of names; it is kept apart from the single-valued attributes
    the code reads ([id], [name], [type], [value], [onclick]). *)
Inductive node : Type :=
| Tag (name : pystr) (classes : list pystr) (attrs : list (pystr * pystr))
      (contents : list node)
| NavigableString (s : pystr).

Definition tag_name (n : node) : option pystr :=
  match n with Tag nm _ _ _ => Some nm | NavigableString _ => None end.

Definition tag_classes (n : node) : list pystr :=
  match n with Tag _ cs _ _ => cs | NavigableString _ => [] end.

Definition tag_attrs (n : node) : list (pystr * pystr) :=
  match n with Tag _ _ a _ => a | NavigableString _ => [] end.

Fixpoint assoc (k : pystr) (l : list (pystr * pystr)) : option pystr :=
  match l with
  | [] => None
  | (k', v) :: l' => if decide (k' = k) then Some v else assoc k l'
  end.

(** [tag[key]] / [tag.get(key)] *)
Definition get_attr (key : pystr) (n : node) : option pystr :=
  assoc key (tag_attrs n).

Definition has_attr (key : pystr) (n : node) : bool :=
  match get_attr key n with Some _ => true | None => false end.

(** Everything below a node, in document order. *)
Fixpoint descendants (n : node) : list node :=
  match n with
  | Tag _ _ _ cs => flat_map (fun c => c :: descendants c) cs
  | NavigableString _ => []
  end.

(** [tag.text] *)
Fixpoint get_text (n : node) : pystr :=
  match n with
  | Tag _ _ _ cs => concat (map get_text cs)
  | NavigableString s => s
  end.

Fixpoint join_space (l : list pystr) : pystr :=
  match l with
  | [] => []
  | [x] => x
  | x :: l' => x ++ 0x20 :: join_space l'
  end.

(** [class_=c]: one of the element's classes, or the whole attribute. *)
Definition has_class (c : pystr) (n : node) : bool :=
  bool_decide (c ∈ tag_classes n)
  || (bool_decide (tag_classes n ≠ []) && bool_decide (join_space (tag_classes n) = c)).

Definition is_tag (nm : pystr) (n : node) : bool :=
  bool_decide (tag_name n = Some nm).

Definition attr_is (key val : pystr) (n : node) : bool :=
  bool_decide (get_attr key n = Some val).

(** [tag.find_all(...)] and [tag.find(...)] for a criterion [p]. *)
Definition find_all (p : node -> bool) (n : node) : list node :=
  List.filter p (descendants n).

Definition find (p : node -> bool) (n : node) : option node :=
  head (find_all p n).

(** The first element satisfying [p] together with what follows it in
    document order: [tag.find_next] searches the second component. *)
Fixpoint first_with_following (p : node -> bool) (l : list node)
  : option (node * list node) :=
  match l with
  | [] => None
  | x :: l' => if p x then Some (x, l') else first_with_following p l'
  end.

(** ** Catalogs *)

Definition PREF_MAP : list (pystr * pystr) :=
  [(u "全国", u "All");
   (u "北海道", u "Hokkaido"); (u "青森県", u "Aomori"); (u "岩手県", u "Iwate");
   (u "宮城県", u "Miyagi"); (u "秋田県", u "Akita"); (u "山形県", u "Yamagata");
   (u "福島県", u "Fukushima"); (u "茨城県", u "Ibaraki"); (u "栃木県", u "Tochigi");
   (u "群馬県", u "Gunma"); (u "埼玉県", u "Saitama"); (u "千葉県", u "Chiba");
   (u "東京都", u "Tokyo"); (u "神奈川県", u "Kanagawa"); (u "新潟県", u "Niigata");
   (u "富山県", u "Toyama"); (u "石川県", u "Ishikawa"); (u "福井県", u "Fukui");
   (u "山梨県", u "Yamanashi"); (u "長野県", u "Nagano"); (u "岐阜県", u "Gifu");
   (u "静岡県", u "Shizuoka"); (u "愛知県", u "Aichi"); (u "三重県", u "Mie");
   (u "滋賀県", u "Shiga"); (u "京都府", u "Kyoto"); (u "大阪府", u "Osaka");
   (u "兵庫県", u "Hyogo"); (u "奈良県", u "Nara"); (u "和歌山県", u "Wakayama");
   (u "鳥取県", u "Tottori"); (u "島根県", u "Shimane"); (u "岡山県", u "Okayama");
   (u "広島県", u "Hiroshima"); (u "山口県", u "Yamaguchi"); (u "徳島県", u "Tokushima");
   (u "香川県", u "Kagawa"); (u "愛媛県", u "Ehime"); (u "高知県", u "Kochi");
   (u "福岡県", u "Fukuoka"); (u "佐賀県", u "Saga"); (u "長崎県", u "Nagasaki");
   (u "熊本県", u "Kumamoto"); (u "大分県", u "Oita"); (u "宮崎県", u "Miyazaki");
   (u "鹿児島県", u "Kagoshima"); (u "沖縄県", u "Okinawa"); (u "国外", u "Other")].

(** [PREF_MAP.get(k, k)] *)
Definition pref_name (k : pystr) : pystr :=
  match assoc k PREF_MAP with Some v => v | None => k end.

(** [\d{5}] *)
Definition digit5_re : regex := cat [Digit; Digit; Digit; Digit; Digit].

(** [re.search(r'\d{5}', a_tag['onclick'])] behind the guards
    [a_tag and a_tag.has_attr('onclick')] and [if match]. *)
Definition onclick_file_id (a_tag : option node) : option pystr :=
  match a_tag with
  | Some a =>
    match get_attr (u "onclick") a with
    | Some onclick =>
      match re_search digit5_re onclick with
      | Some m => Some (group 0 m)
      | None => None
      end
    | None => None
    end
  | None => None
  end.

(** [client.py], [_fetch_zenken_file_ids]: the loop over the [dl] rows. *)
Fixpoint zenken_rows (rows : list node) (region_file_ids : gmap pystr pystr)
  : result (gmap pystr pystr) :=
  match rows with
  | [] => Ok region_file_ids
  | row :: rows' =>
    match find (fun n => is_tag (u "dt") n && has_class (u "mb05") n) row with
    | None => Raise AttributeError
    | Some dt =>
      let region_name_jp := strip (get_text dt) in
      let region_name := pref_name region_name_jp in
      match onclick_file_id (find (is_tag (u "a")) row) with
      | Some file_id => zenken_rows rows' (<[region_name := file_id]> region_file_ids)
      | None => zenken_rows rows' region_file_ids
      end
    end
  end.

Definition unicode_table (soup : node) : result node :=
  match find (fun n => is_tag (u "div") n && has_class (u "inBox21") n) soup with
  | None => Raise AttributeError
  | Some box =>
    match find_all (fun n => is_tag (u "div") n && has_class (u "tbl02") n) box !! 1%nat with
    | None => Raise IndexError
    | Some t => Ok t
    end
  end.

Definition _fetch_zenken_file_ids (soup : node) : result (gmap pystr pystr) :=
  match unicode_table soup with
  | Raise e => Raise e
  | Ok t => zenken_rows (find_all (is_tag (u "dl")) t) ∅
  end.

(** [load.py], [_fetch_file_ids]: no guards around the anchor, its
    [onclick] and the match. *)
Fixpoint legacy_rows (rows : list node) (region_file_ids : gmap pystr pystr)
  : result (gmap pystr pystr) :=
  match rows with
  | [] => Ok region_file_ids
  | row :: rows' =>
    match find (fun n => is_tag (u "dt") n && has_class (u "mb05") n) row with
    | None => Raise AttributeError
    | Some dt =>
      let region_name := pref_name (strip (get_text dt)) in
      match find (is_tag (u "a")) row with
      | None => Raise AttributeError
      | Some a =>
        match get_attr (u "onclick") a with
        | None => Raise TypeError
        | Some onclick =>
          match re_search digit5_re onclick with
          | None => Raise AttributeError
          | Some m => legacy_rows rows' (<[region_name := group 0 m]> region_file_ids)
          end
        end
      end
    end
  end.

Definition _fetch_file_ids (soup : node) : result (gmap pystr pystr) :=
  match unicode_table soup with
  | Raise e => Raise e
  | Ok t => legacy_rows (find_all (is_tag (u "dl")) t) ∅
  end.

(** [client.py], [_fetch_sabun_file_id]: the [tr] elements the loop visits,
    none when the labelled section, its table or the table body is
    missing. *)
Definition sabun_rows (soup : node) : list node :=
  match first_with_following (attr_is (u "id") (u "csv-unicode")) (descendants soup) with
  | Some (header, following) =>
    match List.find (fun n => is_tag (u "div") n && has_class (u "tbl03") n) following with
    | Some table_div =>
      match find (is_tag (u "table")) table_div with
      | Some table =>
        match find (is_tag (u "tbody")) table with
        | Some tbody => find_all (is_tag (u "tr")) tbody
        | None => []
        end
      | None => []
      end
    | None => []
    end
  | None => []
  end.

(** The loop body's early return: [Ok (Some id)] returns [id], [Ok None]
    falls out of the loop. *)
Fixpoint sabun_loop (rows : list node) (target_date : option pystr)
  : result (option pystr) :=
  match rows with
  | [] => Ok None
  | tr :: rows' =>
    match find (is_tag (u "th")) tr, find (is_tag (u "td")) tr with
    | Some th, Some td =>
      match _convert_japanese_date (strip (get_text th)) with
      | Raise e => Raise e
      | Ok parsed_date =>
        match onclick_file_id (find (is_tag (u "a")) td) with
        | Some file_id =>
          if bool_decide (target_date = None) || bool_decide (parsed_date = target_date)
          then Ok (Some file_id)
          else sabun_loop rows' target_date
        | None => sabun_loop rows' target_date
        end
      end
    | _, _ => sabun_loop rows' target_date
    end
  end.

Definition _fetch_sabun_file_id (soup : node) (target_date : option pystr)
  : result pystr :=
  match sabun_loop (sabun_rows soup) target_date with
  | Raise e => Raise e
  | Ok (Some file_id) => Ok file_id
  | Ok None =>
    match target_date with
    | None => Raise (ValueError (u "Failed to retrieve the latest sabun file ID."))
    | Some d => Raise (ValueError (u "No sabun data found for the date: " ++ d))
    end
  end.

(** ** Tabular data ([pyarrow], [pandas]) *)

(** The records of a delimited text file, each a list of fields. *)
Abbreviation csv := (list (list pystr)).

Inductive dtype : Type := pa_string | pa_int64 | pa_null.

Global Instance dtype_eq_dec : EqDecision dtype.
Proof. solve_decision. Defined.

Abbreviation field := (pystr * dtype)%type.

(** [pa.schema([pa.field(col, pa.string()) for col in headers])] *)
Definition string_schema (headers : list pystr) : list field :=
  map (fun col => (col, pa_string)) headers.

Record table : Type := { t_schema : list field; t_rows : csv }.

Fixpoint assoc_type (k : pystr) (l : list field) : option dtype :=
  match l with
  | [] => None
  | (k', v) :: l' => if decide (k' = k) then Some v else assoc_type k l'
  end.

(** The type [pyarrow] would infer for a column left without a declared
    one: nothing but empty fields, nothing but integers, or text. *)
Definition infer_type (vals : list pystr) : dtype :=
  if forallb (fun v => bool_decide (v = [])) vals then pa_null
  else if forallb (fun v => bool_decide (v ≠ []) && forallb is_digit v) vals then pa_int64
  else pa_string.

Definition column (i : nat) (rows : csv) : list pystr :=
  map (fun r => nth i r []) rows.

(** [ReadOptions(column_names=...)] with [ConvertOptions(column_types=...)]:
    the output has one column per given name, in that order; a declared type
    wins over inference. *)
Definition csv_schema (column_names : list pystr) (column_types : list field)
    (rows : csv) : list field :=
  imap (fun i name =>
          (name, match assoc_type name column_types with
                 | Some t => t
                 | None => infer_type (column i rows)
                 end)) column_names.

(** A record with another number of fields than there are column names is
    a parse error; so is a file without a record. *)
Definition well_formed_rows (column_names : list pystr) (rows : csv) : bool :=
  forallb (fun r => bool_decide (length r = length column_names)) rows.

(** [pacsv.read_csv] *)
Definition pacsv_read_csv (rows : csv) (column_names : list pystr)
    (column_types : list field) : result table :=
  match rows with
  | [] => Raise ArrowInvalid
  | _ =>
    if well_formed_rows column_names rows
    then Ok {| t_schema := csv_schema column_names column_types rows; t_rows := rows |}
    else Raise ArrowInvalid
  end.

(** The streaming reader hands the file over in blocks; [sizes] are the
    numbers of records the successive blocks hold, the last block takes what
    is left. *)
Fixpoint split_blocks (sizes : list nat) (rows : csv) : list csv :=
  match rows with
  | [] => []
  | _ =>
    match sizes with
    | [] => [rows]
    | n :: sizes' =>
      match n with
      | O => split_blocks sizes' rows
      | S _ => take n rows :: split_blocks sizes' (drop n rows)
      end
    end
  end.

(** [pacsv.open_csv]: the schema is fixed on the first block, and each
    block is parsed when the consumer asks for it. *)
Definition pacsv_open_csv (sizes : list nat) (rows : csv) (column_names : list pystr)
    (column_types : list field) : result (list field * list (result csv)) :=
  match split_blocks sizes rows with
  | [] => Raise ArrowInvalid
  | b :: bs =>
    if well_formed_rows column_names b
    then Ok (csv_schema column_names column_types b,
             map (fun blk => if well_formed_rows column_names blk
                             then Ok blk else Raise ArrowInvalid) (b :: bs))
    else Raise ArrowInvalid
  end.

Inductive pd_dtype : Type := pd_object | pd_int64.

Record DataFrame : Type :=
  { columns : list pystr; dtypes : list pd_dtype; values : list (list (option pystr)) }.

Definition to_pd_dtype (t : dtype) : pd_dtype :=
  match t with pa_int64 => pd_int64 | _ => pd_object end.

(** [table.to_pandas()] *)
Definition to_pandas (t : table) : DataFrame :=
  {| columns := map fst (t_schema t);
     dtypes := map (fun f => to_pd_dtype (snd f)) (t_schema t);
     values := map (map Some) (t_rows t) |}.

(** One file of a written dataset: the partition values that name its
    directory, and the columns and records it holds. *)
Record parquet_file : Type :=
  { pf_partition : list pystr; pf_schema : list field; pf_rows : csv }.

Definition max_rows_per_file : nat := N.to_nat 1000000.

(** Position of the one field called [name]; [schema.field(name)] raises
    [KeyError] when there is none or more than one. *)
Fixpoint field_positions (name : pystr) (i : nat) (schema : list field) : list nat :=
  match schema with
  | [] => []
  | (n, _) :: schema' =>
    if decide (n = name) then i :: field_positions name (S i) schema'
    else field_positions name (S i) schema'
  end.

Fixpoint partition_indices (partition_cols : list pystr) (schema : list field)
  : result (list nat) :=
  match partition_cols with
  | [] => Ok []
  | c :: cs =>
    match field_positions c 0 schema with
    | [i] =>
      match partition_indices cs schema with
      | Ok idxs => Ok (i :: idxs)
      | Raise e => Raise e
      end
    | _ => Raise (KeyError c)
    end
  end.

(** A record or schema without the partition columns. *)
Definition without {A} (idxs : list nat) (l : list A) : list A :=
  map snd (List.filter (fun p => negb (bool_decide (fst p ∈ idxs))) (imap pair l)).

Definition partition_key (idxs : list nat) (r : list pystr) : list pystr :=
  map (fun i => nth i r []) idxs.

(** The writer keeps one open file per partition directory and appends each
    record to the file of its key. *)
Fixpoint add_row (key : list pystr) (r : list pystr)
    (groups : list (list pystr * csv)) : list (list pystr * csv) :=
  match groups with
  | [] => [(key, [r])]
  | (k, rs) :: groups' =>
    if decide (k = key) then (k, rs ++ [r]) :: groups'
    else (k, rs) :: add_row key r groups'
  end.

Definition add_block (idxs : list nat) (blk : csv)
    (groups : list (list pystr * csv)) : list (list pystr * csv) :=
  foldl (fun g r => add_row (partition_key idxs r) (without idxs r) g) groups blk.

Fixpoint consume_blocks (idxs : list nat) (blocks : list (result csv))
    (groups : list (list pystr * csv)) : result (list (list pystr * csv)) :=
  match blocks with
  | [] => Ok groups
  | Ok blk :: blocks' => consume_blocks idxs blocks' (add_block idxs blk groups)
  | Raise e :: _ => Raise e
  end.

(** A directory's records go to files of at most [limit] records each. *)
Fixpoint chunks_fuel {A} (fuel : nat) (limit : nat) (l : list A) : list (list A) :=
  match fuel with
  | O => []
  | S f =>
    match l with
    | [] => []
    | _ => take limit l :: chunks_fuel f limit (drop limit l)
    end
  end.

Definition chunks {A} (limit : nat) (l : list A) : list (list A) :=
  chunks_fuel (length l) limit l.

(** [ds.write_dataset(reader, format="parquet", partitioning=partition_cols,
    max_rows_per_file=1_000_000, ...)]: the files it writes. *)
Definition write_dataset (schema : list field) (blocks : list (result csv))
    (partition_cols : list pystr) : result (list parquet_file) :=
  match partition_indices partition_cols schema with
  | Raise e => Raise e
  | Ok idxs =>
    match consume_blocks idxs blocks [] with
    | Raise e => Raise e
    | Ok groups =>
      Ok (flat_map (fun g =>
            map (fun rs => {| pf_partition := fst g;
                              pf_schema := without idxs schema;
                              pf_rows := rs |})
                (chunks max_rows_per_file (snd g))) groups)
    end
  end.


(** ** [writer.py]: [CorporateDataWriter] *)

Record CorporateDataWriter : Type :=
  { w_headers : list pystr; w_schema : list field }.

(** [__init__], given what [load_config("header")] returns. *)
Definition new_writer (header : list pystr) : CorporateDataWriter :=
  {| w_headers := header; w_schema := string_schema header |}.

(** [_parse_to_df] on the records of the file at [csv_file_path]. *)
Definition parse_to_df (self : CorporateDataWriter) (rows : csv) : result DataFrame :=
  match pacsv_read_csv rows (w_headers self) (w_schema self) with
  | Ok t => Ok (to_pandas t)
  | Raise e => Raise e
  end.

(** The table [_parse_to_df] holds before [to_pandas]. *)
Definition parse_to_table (self : CorporateDataWriter) (rows : csv) : result table :=
  pacsv_read_csv rows (w_headers self) (w_schema self).

(** [_parse_to_parquet_dataset]: the files written under [output_dir];
    [partition_cols if partition_cols else None] makes an empty list and
    [None] the same. *)
Definition parse_to_parquet_files (self : CorporateDataWriter) (sizes : list nat)
    (rows : csv) (partition_cols : option (list pystr)) : result (list parquet_file) :=
  match pacsv_open_csv sizes rows (w_headers self) (w_schema self) with
  | Raise e => Raise e
  | Ok (schema, blocks) =>
    write_dataset schema blocks (default [] partition_cols)
  end.

(** ** The disk and the remote site *)

(** What a file holds: a zip archive (member names in listing order, each
    with its records, or [None] when reading the member fails its CRC
    check), the records of a data file, or other bytes. *)
Inductive content : Type :=
| Archive (members : list (pystr * option csv))
| Data (rows : csv)
| Bytes.

(** The answer to a POST: no usable response (connection error, timeout, or
    a status [raise_for_status] rejects), or a body, which either streams to
    its end or breaks off with a [RequestException] part-way. *)
Inductive response : Type :=
| Failed
| Body (c : content) (complete : bool).

Record page : Type := { status_ok : bool; markup : node }.

(** Where output goes: a directory the caller names, a new temporary
    directory, or the path of a temporary data file with [.parquet] put for
    [.csv]. *)
Inductive dirpath : Type :=
| UserDir (p : pystr)
| TempDir (n : N)
| ParquetBeside (csv_path : N).

Record world : Type := mkWorld {
  http_get : pystr -> option page;
  http_post : pystr -> pystr -> pystr -> response;
  block_sizes : list nat;
  disk : gmap N content;
  next_name : N;
  created : list N;
  removed : list N;
  written : list (dirpath * list parquet_file)
}.

Definition M (A : Type) : Type := world -> result A * world.

Global Instance M_ret : MRet M := fun A a w => (Ok a, w).

Global Instance M_bind : MBind M := fun A B k m w =>
  match m w with
  | (Ok a, w') => k a w'
  | (Raise e, w') => (Raise e, w')
  end.

Definition raise {A} (e : exn) : M A := fun w => (Raise e, w).

Definition lift {A} (r : result A) : M A := fun w => (r, w).

Definition get_world : M world := fun w => (Ok w, w).

(** [try: body finally: cleanup] *)
Definition try_finally {A} (body : M A) (cleanup : M unit) : M A := fun w =>
  match body w with
  | (r, w1) =>
    match cleanup w1 with
    | (Ok _, w2) => (r, w2)
    | (Raise e, w2) => (Raise e, w2)
    end
  end.

(** [tempfile.NamedTemporaryFile(..., delete=False)]: a new, empty file
    under a name not handed out before. *)
Definition NamedTemporaryFile : M N := fun w =>
  let p := next_name w in
  (Ok p, mkWorld (http_get w) (http_post w) (block_sizes w)
           (<[p := Bytes]> (disk w)) (p + 1) (p :: created w) (removed w) (written w)).

(** [tempfile.mkdtemp] *)
Definition mkdtemp : M dirpath := fun w =>
  let p := next_name w in
  (Ok (TempDir p), mkWorld (http_get w) (http_post w) (block_sizes w)
           (disk w) (p + 1) (created w) (removed w) (written w)).

Definition write_file (p : N) (c : content) : M unit := fun w =>
  (Ok tt, mkWorld (http_get w) (http_post w) (block_sizes w)
           (<[p := c]> (disk w)) (next_name w) (created w) (removed w) (written w)).

Definition read_file (p : N) : M content := fun w =>
  match disk w !! p with
  | Some c => (Ok c, w)
  | None => (Raise OSError, w)
  end.

(** [os.path.exists] *)
Definition path_exists (p : N) : M bool := fun w =>
  (Ok (bool_decide (is_Some (disk w !! p))), w).

(** [os.remove] *)
Definition os_remove (p : N) : M unit := fun w =>
  match disk w !! p with
  | Some _ =>
    (Ok tt, mkWorld (http_get w) (http_post w) (block_sizes w)
              (delete p (disk w)) (next_name w) (created w) (p :: removed w) (written w))
  | None => (Raise OSError, w)
  end.

Definition record_written (d : dirpath) (files : list parquet_file) : M unit := fun w =>
  (Ok tt, mkWorld (http_get w) (http_post w) (block_sizes w)
           (disk w) (next_name w) (created w) (removed w) ((d, files) :: written w)).

(** [if os.path.exists(p): os.remove(p)] *)
Definition remove_if_exists (p : N) : M unit :=
  e ← path_exists p; if (e : bool) then os_remove p else mret tt.

(** ** Archives ([writer.py] lines 33-50, [load.py] lines 192-208) *)

(** [\.csv$] under [re.IGNORECASE] *)
Definition csv_re : regex := cat (map LitI (u ".csv") ++ [Dollar]).

Definition is_csv_name (n : pystr) : bool :=
  match re_search csv_re n with Some _ => true | None => false end.

(** [[n for n in zf.namelist() if re.search(r"\.csv$", n, re.IGNORECASE)]],
    then [members[0]] unless the list is empty. *)
Definition csv_members (namelist : list pystr) : list pystr :=
  List.filter is_csv_name namelist.

Definition select_member (namelist : list pystr) : result pystr :=
  match csv_members namelist with
  | [] => Raise (BadZipFile (u "No CSV found in ZIP."))
  | target :: _ => Ok target
  end.

(** [zf.open(name)] goes by the archive's name index, where a later entry
    of the same name replaces an earlier one. *)
Fixpoint zip_entry (name : pystr) (members : list (pystr * option csv))
  : option (option csv) :=
  match members with
  | [] => None
  | (n, d) :: members' =>
    match zip_entry name members' with
    | Some d' => Some d'
    | None => if decide (n = name) then Some d else None
    end
  end.

Definition ZipFile (zip_path : N) : M (list (pystr * option csv)) :=
  c ← read_file zip_path;
  match c with
  | Archive members => mret members
  | _ => raise (BadZipFile (u "File is not a zip file"))
  end.

(** The first [try] block of [uncompress_and_parse], and all of
    [_uncompress_file]: pick the member and copy it to a new temporary
    file. *)
Definition extract_csv (zip_path : N) : M N :=
  zf ← ZipFile zip_path;
  target ← lift (select_member (map fst zf));
  tmp_csv ← NamedTemporaryFile;
  match zip_entry target zf with
  | Some (Some rows) => write_file tmp_csv (Data rows);; mret tmp_csv
  | _ => raise (BadZipFile (u "Bad CRC-32"))
  end.

Definition read_rows (csv_file_path : N) : M csv :=
  c ← read_file csv_file_path;
  match c with
  | Data rows => mret rows
  | _ => raise ArrowInvalid
  end.

Inductive output : Type :=
| Frame (df : DataFrame)
| Dir (d : dirpath).

Definition _parse_to_df (self : CorporateDataWriter) (csv_file_path : N) : M DataFrame :=
  rows ← read_rows csv_file_path;
  lift (parse_to_df self rows).

Definition _parse_to_parquet_dataset (self : CorporateDataWriter) (csv_file_path : N)
    (output_dir : dirpath) (partition_cols : option (list pystr)) : M dirpath :=
  rows ← read_rows csv_file_path;
  w ← get_world;
  files ← lift (parse_to_parquet_files self (block_sizes w) rows partition_cols);
  record_written output_dir files;;
  mret output_dir.

Definition uncompress_and_parse (self : CorporateDataWriter) (zip_path : N)
    (format_type : pystr) (output_dir : option pystr)
    (partition_cols : option (list pystr)) : M output :=
  csv_file_path ← extract_csv zip_path;
  try_finally
    (if decide (format_type = u "df") then
       df ← _parse_to_df self csv_file_path; mret (Frame df)
     else if decide (format_type = u "parquet") then
       output_dir' ← match output_dir with
                     | Some (c :: d) => mret (UserDir (c :: d))
                     | _ => mkdtemp
                     end;
       d ← _parse_to_parquet_dataset self csv_file_path output_dir' partition_cols;
       mret (Dir d)
     else raise (ValueError (u "Invalid format. Use 'df' or 'parquet'.")))
    (remove_if_exists csv_file_path).

(** ** [client.py]: [CorporateRegistryClient] *)

Definition ZENKEN_URL : pystr := u "https://www.houjin-bangou.nta.go.jp/download/zenken/".
Definition SABUN_URL : pystr := u "https://www.houjin-bangou.nta.go.jp/download/sabun/".

Definition token_key : pystr :=
  u "jp.go.nta.houjin_bangou.framework.web.common.CNSFWTokenProcessor.request.token".

(** [soup.find("input", {"name": key, "type": "hidden"})] *)
Definition find_token_input (soup : node) : option node :=
  find (fun n => is_tag (u "input") n && attr_is (u "name") token_key n
                 && attr_is (u "type") (u "hidden") n) soup.

Definition _get_page_and_token (url : pystr) : M (node * pystr) :=
  w ← get_world;
  match http_get w url with
  | Some pg =>
    if status_ok pg then
      match find_token_input (markup pg) with
      | None =>
        raise (ValueError (u "Security token '" ++ token_key ++ u "' not found on " ++ url))
      | Some token_input =>
        match get_attr (u "value") token_input with
        | Some v => mret (markup pg, v)
        | None => raise (KeyError (u "value"))
        end
      end
    else raise (SystemExit (u "Request to " ++ url ++ u " failed"))
  | None => raise (SystemExit (u "Request to " ++ url ++ u " failed"))
  end.

Definition _download_zip (base_url token file_id : pystr) : M N :=
  w ← get_world;
  match http_post w base_url token file_id with
  | Failed => raise (SystemExit (u "Request to download ZIP failed"))
  | Body c complete =>
    tmp ← NamedTemporaryFile;
    if complete then write_file tmp c;; mret tmp
    else raise (SystemExit (u "Request to download ZIP failed"))
  end.

Section Client.
(** [str.capitalize], and the writer the client holds. *)
Variable capitalize : pystr -> pystr.
Variable writer : CorporateDataWriter.

Definition _download_and_process (prefecture format_type : pystr)
    (output_dir : option pystr) (partition_cols : option (list pystr)) : M output :=
  '(soup, token) ← _get_page_and_token ZENKEN_URL;
  pref_list ← lift (_fetch_zenken_file_ids soup);
  let capitalized_pref := capitalize prefecture in
  match pref_list !! capitalized_pref with
  | None => raise (ValueError (u "Unexpected Prefecture or Region: " ++ prefecture))
  | Some file_id =>
    zip_path ← _download_zip ZENKEN_URL token file_id;
    try_finally
      (uncompress_and_parse writer zip_path format_type output_dir partition_cols)
      (remove_if_exists zip_path)
  end.

Definition download_all (format : pystr) (output_dir : option pystr)
    (partition_cols : option (list pystr)) : M output :=
  _download_and_process (u "All") format output_dir partition_cols.

Definition download_prefecture (prefecture format : pystr) (output_dir : option pystr)
    (partition_cols : option (list pystr)) : M output :=
  _download_and_process prefecture format output_dir partition_cols.

Definition download_diff (date : option pystr) (format : pystr)
    (output_dir : option pystr) (partition_cols : option (list pystr)) : M output :=
  '(soup, token) ← _get_page_and_token (SABUN_URL ++ u "index.html");
  file_id ← lift (_fetch_sabun_file_id soup date);
  zip_path ← _download_zip SABUN_URL token file_id;
  try_finally
    (uncompress_and_parse writer zip_path format output_dir partition_cols)
    (remove_if_exists zip_path).
End Client.

(** ** [load.py]: the earlier loader *)

Section Loader.
Variable capitalize : pystr -> pystr.
(** [load_config("header")] *)
Variable header : list pystr.
(** What the [pandas] tokenizer makes of a file's records under the given
    column names: the cells of each row, [None] for a missing value, or an
    error. *)
Variable pd_tokenize : list pystr -> csv -> result (list (list (option pystr))).
(** What the chunk-by-chunk [ParquetWriter] makes of the tokenized cells:
    one file, or an error when a chunk's inferred schema differs from the
    first chunk's. *)
Variable pq_write : list pystr -> list (list (option pystr)) -> result parquet_file.

(** [pd.read_csv(path, encoding='utf-8', header=None, names=header,
    dtype='object')] *)
Definition pd_read_csv (rows : csv) : result DataFrame :=
  match pd_tokenize header rows with
  | Ok cells =>
    Ok {| columns := header; dtypes := map (fun _ => pd_object) header; values := cells |}
  | Raise e => Raise e
  end.

(** [read_csv(file_path)] on the records of the file. *)
Definition read_csv (rows : csv) : result DataFrame := pd_read_csv rows.

Record ZipLoader : Type :=
  { zl_token : pystr; pref_list : gmap pystr pystr }.

(** [soup.find("input", {...})["value"]]: subscripting [None] is a
    [TypeError]. *)
Definition _load_token (soup : node) : result pystr :=
  match find_token_input soup with
  | None => Raise TypeError
  | Some inp =>
    match get_attr (u "value") inp with
    | Some v => Ok v
    | None => Raise (KeyError (u "value"))
    end
  end.

(** [ZipLoader.__init__]: the status of the response is not looked at. *)
Definition ZipLoader_init : M ZipLoader :=
  w ← get_world;
  match http_get w ZENKEN_URL with
  | None => raise (SystemExit (u "Request to " ++ ZENKEN_URL ++ u " has been failure"))
  | Some pg =>
    token ← lift (_load_token (markup pg));
    pl ← lift (_fetch_file_ids (markup pg));
    mret {| zl_token := token; pref_list := pl |}
  end.

Definition loader_download_zip (self : ZipLoader) (file_id : pystr) : M N :=
  _download_zip ZENKEN_URL (zl_token self) file_id.

Definition _uncompress_file (zip_path : N) : M N := extract_csv zip_path.

Definition _zip_load (self : ZipLoader) (prefecture : pystr) : M N :=
  match pref_list self !! capitalize prefecture with
  | None => raise (SystemExit (u "Unexpected Key Value: " ++ prefecture))
  | Some file_id =>
    zip_path ← loader_download_zip self file_id;
    _uncompress_file zip_path
  end.

Definition _convert_csv_2_df (csv_path : N) : M DataFrame :=
  c ← read_file csv_path;
  match c with
  | Data rows => lift (pd_read_csv rows)
  | _ => raise (ValueError (u "Error tokenizing data"))
  end.

Definition to_df (self : ZipLoader) (prefecture : pystr) : M DataFrame :=
  csv_path ← _zip_load self prefecture;
  _convert_csv_2_df csv_path.

(** [_convert_csv_2_parquet]: the file goes where
    [csv_path.replace(".csv", ".parquet")] points. *)
Definition _convert_csv_2_parquet (csv_path : N) : M dirpath :=
  c ← read_file csv_path;
  match c with
  | Data rows =>
    cells ← lift (pd_tokenize header rows);
    file ← lift (pq_write header cells);
    record_written (ParquetBeside csv_path) [file];;
    mret (ParquetBeside csv_path)
  | _ => raise (ValueError (u "Error tokenizing data"))
  end.

Definition to_parquet (self : ZipLoader) (prefecture : pystr) : M dirpath :=
  csv_path ← _zip_load self prefecture;
  _convert_csv_2_parquet csv_path.

Definition load (prefecture format : pystr) : M output :=
  loader ← ZipLoader_init;
  if decide (format = u "df") then
    df ← to_df loader prefecture; mret (Frame df)
  else if decide (format = u "parquet") then
    d ← to_parquet loader prefecture; mret (Dir d)
  else raise (ValueError (u "Invalid format. Use 'df' or 'parquet'.")).
End Loader.

(** [str.capitalize] on ASCII text: the first letter in upper case, the
    others in lower case. *)
Definition ascii_upper (c : N) : N :=
  if (0x61 <=? c) && (c <=? 0x7a) then c - 0x20 else c.

Definition ascii_lower (c : N) : N :=
  if (0x41 <=? c) && (c <=? 0x5a) then c + 0x20 else c.

Definition capitalize_ascii (s : pystr) : pystr :=
  match s with
  | [] => []
  | c :: s' => ascii_upper c :: map ascii_lower s'
  end.

(** ** Vocabulary of the statements *)

(** A non-empty run of decimal digits. *)
Definition digit_string (l : pystr) : Prop :=
  l ≠ [] ∧ Forall (fun c => is_digit c = true) l.

(** The year of an era date: the first-year glyph or a digit run. *)
Definition year_token (y : pystr) : Prop := y = [gan] ∨ digit_string y.

Definition digits_value (s : pystr) : N := default 0 (py_int s).

Definition year_value (y : pystr) : N :=
  if decide (y = [gan]) then 1 else digits_value y.

(** [s] reads [pre <era><year>年<month>月<day>日 post]. *)
Definition era_occurrence (era pre y m d post s : pystr) : Prop :=
  s = pre ++ era ++ y ++ nen :: m ++ getsu :: d ++ nichi :: post
  ∧ year_token y ∧ digit_string m ∧ digit_string d.

Definition matches_era (era s : pystr) : Prop :=
  ∃ pre y m d post, era_occurrence era pre y m d post s.

(** No occurrence of the era pattern starts before offset [length pre]. *)
Definition leftmost (era pre s : pystr) : Prop :=
  ∀ pre' y m d post, era_occurrence era pre' y m d post s → (length pre ≤ length pre')%nat.

(** The canonical date of an occurrence. *)
Definition ymd (offset : N) (y m d : pystr) : pystr :=
  format_0d 4 (year_value y + offset) ++ format_0d 2 (digits_value m)
  ++ format_0d 2 (digits_value d).

(** The longest run of digits at the head of a string, and the rest. *)
Fixpoint span_digits (s : pystr) : pystr * pystr :=
  match s with
  | c :: s' =>
    if is_digit c then (c :: fst (span_digits s'), snd (span_digits s'))
    else ([], s)
  | [] => ([], [])
  end.

Definition digit_run (s : pystr) : option (pystr * pystr) :=
  match span_digits s with
  | ([], _) => None
  | p => Some p
  end.

Definition expect (c : N) (s : pystr) : option pystr :=
  match s with
  | x :: s' => if x =? c then Some s' else None
  | [] => None
  end.

Fixpoint expect_all (p s : pystr) : option pystr :=
  match p with
  | [] => Some s
  | c :: p' =>
    match expect c s with
    | Some s' => expect_all p' s'
    | None => None
    end
  end.

Definition year_run (s : pystr) : option (pystr * pystr) :=
  match digit_run s with
  | Some p => Some p
  | None =>
    match expect gan s with
    | Some r => Some ([gan], r)
    | None => None
    end
  end.

(** The one way the era pattern can match at the head of [s]: year, month,
    day and what follows the match. *)
Definition parse_era (era s : pystr) : option (pystr * pystr * pystr * pystr) :=
  match expect_all era s with
  | None => None
  | Some s1 =>
    match year_run s1 with
    | None => None
    | Some (y, s2) =>
      match expect nen s2 with
      | None => None
      | Some s3 =>
        match digit_run s3 with
        | None => None
        | Some (m, s4) =>
          match expect getsu s4 with
          | None => None
          | Some s5 =>
            match digit_run s5 with
            | None => None
            | Some (d, s6) =>
              match expect nichi s6 with
              | None => None
              | Some s7 => Some (y, m, d, s7)
              end
            end
          end
        end
      end
    end
  end.

(** The date a row's header cell converts to. *)
Definition row_date (th : node) : option pystr :=
  match _convert_japanese_date (strip (get_text th)) with
  | Ok d => d
  | Raise _ => None
  end.

(** The entry a table row resolves to, if any: it needs a header cell, a
    data cell, an anchor in the data cell, an [onclick] on the anchor and
    five digits in a row in the [onclick]. *)
Definition row_entry (tr : node) : option (option pystr * pystr) :=
  match find (is_tag (u "th")) tr, find (is_tag (u "td")) tr with
  | Some th, Some td =>
    match onclick_file_id (find (is_tag (u "a")) td) with
    | Some file_id => Some (row_date th, file_id)
    | None => None
    end
  | _, _ => None
  end.

(** The date catalog of a page: the entries of its rows, in document
    order. *)
Definition date_catalog (soup : node) : list (option pystr * pystr) :=
  omap row_entry (sabun_rows soup).

Definition has_date (t : pystr) (e : option pystr * pystr) : bool :=
  bool_decide (fst e = Some t).










(** The records held by the groups of a dataset under construction. *)
Definition group_rows (groups : list (list pystr * csv)) : nat :=
  foldr (fun g n => (length (snd g) + n)%nat) 0%nat groups.

Definition all_text (schema : list field) : Prop :=
  Forall (fun f => snd f = pa_string) schema.

(** ** Sample pages *)

Definition text_cell (tag text : pystr) : node :=
  Tag tag [] [] [NavigableString text].

Definition link_cell (onclick : pystr) : node :=
  Tag (u "td") [] []
    [Tag (u "a") [] [(u "href", u "#"); (u "onclick", onclick)] [NavigableString (u "zip")]].

Definition token_input (v : pystr) : node :=
  Tag (u "input") [] [(u "type", u "hidden"); (u "name", token_key); (u "value", v)] [].

(** A differential page whose first row has no link yet. *)
Definition sabun_row_pending : node :=
  Tag (u "tr") [] [] [text_cell (u "th") (u "令和8年2月20日"); text_cell (u "td") (u "準備中")].

Definition sabun_row_ready : node :=
  Tag (u "tr") [] []
    [text_cell (u "th") (u " 令和8年2月19日 "); link_cell (u "return doDownload(12345);")].

Definition sabun_page : node :=
  Tag (u "[document]") [] []
    [token_input (u "3f9a1c");
     Tag (u "h2") [] [(u "id", u "csv-unicode")] [NavigableString (u "CSV Unicode")];
     Tag (u "div") [u "tbl03"] []
       [Tag (u "table") [] []
          [Tag (u "tbody") [] [] [sabun_row_pending; sabun_row_ready]]]].

Definition region_row (name onclick : pystr) : node :=
  Tag (u "dl") [] []
    [Tag (u "dt") [u "mb05"] [] [NavigableString name];
     Tag (u "dd") [] [] [Tag (u "a") [] [(u "href", u "#"); (u "onclick", onclick)]
                           [NavigableString (u "zip")]]].

(** A full-snapshot page: the second [tbl02] block is the Unicode one. *)
Definition zenken_page : node :=
  Tag (u "[document]") [] []
    [token_input (u "3f9a1c");
     Tag (u "div") [u "inBox21"] []
       [Tag (u "div") [u "tbl02"] []
          [region_row (u "全国") (u "return doDownload(00001);")];
        Tag (u "div") [u "tbl02"] []
          [region_row (u " 全国 ") (u "return doDownload(00010);");
           region_row (u "東京都") (u "return doDownload(00023);");
           region_row (u "島根県") (u "return doDownload(00042);")]]].

(** The same page without the hidden token field. *)
Definition zenken_page_no_token : node :=
  Tag (u "[document]") [] [] [Tag (u "div") [u "inBox21"] [] []].

Definition sample_header : list pystr :=
  [u "sequence_number"; u "corporate_number"; u "name"].

Definition sample_rows : csv :=
  [[u "1"; u "1000013050238"; u "松江地方裁判所"];
   [u "2"; u "1280001000016"; u "島田商事株式会社"]].

Definition sample_archive : content :=
  Archive [(u "readme.txt", Some []); (u "32_shimane_all.csv", Some sample_rows)].

(** A site that serves both pages and one archive for every identifier. *)
Definition sample_world : world :=
  mkWorld
    (fun url =>
       if decide (url = ZENKEN_URL) then Some {| status_ok := true; markup := zenken_page |}
       else if decide (url = SABUN_URL ++ u "index.html")
            then Some {| status_ok := true; markup := sabun_page |}
            else None)
    (fun url token file_id =>
       if decide (token = u "3f9a1c") then Body sample_archive true else Failed)
    [1%nat] ∅ 0 [] [] [].

(** A site whose full-snapshot page has lost its token field, and one that
    cannot be reached. *)
Definition world_no_token : world :=
  mkWorld (fun _ => Some {| status_ok := true; markup := zenken_page_no_token |})
          (fun _ _ _ => Failed) [] ∅ 0 [] [] [].

Definition world_unreachable : world :=
  mkWorld (fun _ => None) (fun _ _ _ => Failed) [] ∅ 0 [] [] [].

Definition sample_catalog : gmap pystr pystr :=
  match _fetch_zenken_file_ids zenken_page with
  | Ok c => c
  | Raise _ => ∅
  end.

(** A tokenizer that takes every record as it is, and a writer that puts
    all cells in one file. *)
Definition plain_tokenize (names : list pystr) (rows : csv)
  : result (list (list (option pystr))) :=
  Ok (map (map Some) rows).

Definition plain_pq_write (names : list pystr) (cells : list (list (option pystr)))
  : result parquet_file :=
  Ok {| pf_partition := []; pf_schema := string_schema names;
        pf_rows := map (map (default [])) cells |}.

(** A site whose archive has a data member that cannot be read, and one
    whose download breaks off part-way. *)
Definition world_bad_member : world :=
  mkWorld (http_get sample_world)
          (fun _ _ _ => Body (Archive [(u "32_shimane_all.csv", None)]) true)
          [] ∅ 0 [] [] [].

Definition world_broken_stream : world :=
  mkWorld (http_get sample_world) (fun _ _ _ => Body sample_archive false)
          [] ∅ 0 [] [] [].

(** ** Vocabulary of the further properties *)

(** Five decimal digits at the head of [s]. *)
Definition digit5_here (s : pystr) : bool :=
  match s with
  | a :: b :: c :: d :: e :: _ =>
    is_digit a && is_digit b && is_digit c && is_digit d && is_digit e
  | _ => false
  end.

(** The shape of a file identifier: five decimal digits. *)
Definition file_id_shape (v : pystr) : Prop :=
  length v = 5%nat ∧ Forall (fun c => is_digit c = true) v.

(** The rows of the region table, none when the table is not found. *)
Definition region_rows (soup : node) : list node :=
  match unicode_table soup with
  | Ok t => find_all (is_tag (u "dl")) t
  | Raise _ => []
  end.

(** What a row of the region table adds to the catalog, if anything. *)
Definition region_entry (row : node) : option (pystr * pystr) :=
  match find (fun n => is_tag (u "dt") n && has_class (u "mb05") n) row with
  | Some dt =>
    match onclick_file_id (find (is_tag (u "a")) row) with
    | Some file_id => Some (pref_name (strip (get_text dt)), file_id)
    | None => None
    end
  | None => None
  end.

Definition has_name_cell (row : node) : bool :=
  match find (fun n => is_tag (u "dt") n && has_class (u "mb05") n) row with
  | Some _ => true
  | None => false
  end.

Definition insert_entry (m : gmap pystr pystr) (e : pystr * pystr) : gmap pystr pystr :=
  <[fst e := snd e]> m.

Definition has_key (k : pystr) (e : pystr * pystr) : bool := bool_decide (fst e = k).

(** An ASCII digit. *)
Definition ascii_digit (c : N) : Prop := 0x30 ≤ c ≤ 0x39.

(** The site answers the request with an archive that streams to its end
    and whose selected data member holds [rows]. *)
Definition serves (w : world) (url token file_id : pystr) (rows : csv) : Prop :=
  ∃ members target,
    http_post w url token file_id = Body (Archive members) true
    ∧ select_member (map fst members) = Ok target
    ∧ zip_entry target members = Some (Some rows).

(** The page at [url] is served with an accepted status and carries the
    hidden token field with value [token]. *)
Definition page_with_token (w : world) (url : pystr) (soup : node) (token : pystr) : Prop :=
  ∃ pg inp,
    http_get w url = Some pg ∧ status_ok pg = true ∧ markup pg = soup
    ∧ find_token_input soup = Some inp ∧ get_attr (u "value") inp = Some token.

(** Where a dataset goes: the directory given unless it is missing or the
    empty string, else a new temporary directory. *)
Definition dataset_dir (output_dir : option pystr) (fresh : N) : dirpath :=
  match output_dir with
  | Some (c :: d) => UserDir (c :: d)
  | _ => TempDir fresh
  end.


Definition known_format (format : pystr) : Prop :=
  format = u "df" ∨ format = u "parquet".

(** A computation that ends in an error from every state. *)
Definition fails {A} (m : M A) : Prop :=
  ∀ w, ∃ e, fst (m w) = Raise e.




(** A computation that, started with no name below [n] left to hand out,
    leaves every file named below [n] as it was, hands out no such name
    later, and returns only values that satisfy [Q]. *)
Definition safe {A} (n : N) (Q : A → Prop) (m : M A) : Prop :=
  ∀ w, n ≤ next_name w →
    n ≤ next_name (snd (m w))
    ∧ (∀ p, p < n → disk (snd (m w)) !! p = disk w !! p)
    ∧ ∀ a, fst (m w) = Ok a → Q a.

(** The sample site with a data file left over from an earlier call. *)
Definition world_with_leftover : world :=
  mkWorld (http_get sample_world) (http_post sample_world) [1%nat]
          {[ 0 := Data sample_rows ]} 1 [0] [] [].

(** A region table whose first row has no link yet. *)
Definition region_table_pending : node :=
  Tag (u "div") [u "tbl02"] []
    [Tag (u "dl") [] [] [Tag (u "dt") [u "mb05"] [] [NavigableString (u "全国")]];
     region_row (u "東京都") (u "return doDownload(00023);");
     region_row (u "東京都") (u "return doDownload(00099);")].

Definition zenken_page_pending : node :=
  Tag (u "[document]") [] []
    [token_input (u "3f9a1c");
     Tag (u "div") [u "inBox21"] []
       [Tag (u "div") [u "tbl02"] [] []; region_table_pending]].

(** * Properties *)

(** ** The matcher on the era pattern *)

Lemma span_digits_app (s : pystr) : fst (span_digits s) ++ snd (span_digits s) = s.
Proof.
  induction s as [|c s IH]; simpl; [done|].
  destruct (is_digit c); simpl; [by rewrite IH|done].
Qed.

Lemma span_digits_digits (s : pystr) :
  Forall (fun c => is_digit c = true) (fst (span_digits s)).
Proof.
  induction s as [|c s IH]; simpl; [constructor|].
  destruct (is_digit c) eqn:E; simpl; [by constructor|constructor].
Qed.

Lemma span_digits_rest (s : pystr) c r :
  snd (span_digits s) = c :: r → is_digit c = false.
Proof.
  induction s as [|x s IH]; simpl; [done|].
  destruct (is_digit x) eqn:E; simpl; [done|]. intros [= -> _]. done.
Qed.

Lemma span_digits_nil (s : pystr) : fst (span_digits s) = [] → snd (span_digits s) = s.
Proof.
  destruct s as [|c s]; simpl; [done|]. by destruct (is_digit c).
Qed.

Lemma span_digits_cons (s : pystr) x a :
  fst (span_digits s) = x :: a → ∃ t, s = x :: t ∧ is_digit x = true.
Proof.
  destruct s as [|c s]; simpl; [done|].
  destruct (is_digit c) eqn:E; simpl; [|done]. intros [= -> _]. eauto.
Qed.

Lemma span_digits_split (ds rest : pystr) :
  Forall (fun c => is_digit c = true) ds →
  match rest with [] => True | c :: _ => is_digit c = false end →
  span_digits (ds ++ rest) = (ds, rest).
Proof.
  intros Hds Hrest. induction Hds as [|c ds Hc _ IH]; simpl.
  - destruct rest as [|c r]; simpl; [done|]. by rewrite Hrest.
  - by rewrite Hc, IH.
Qed.

(** A greedy digit run followed by something that cannot start with a
    digit: only the longest run survives backtracking. *)
Lemma flat_map_digits1 {B} (f : pystr → list B) (s : pystr) :
  (∀ c t, is_digit c = true → f (c :: t) = []) →
  flat_map f (digits1 s)
  = match fst (span_digits s) with [] => [] | _ => f (snd (span_digits s)) end.
Proof.
  intros Hf. induction s as [|c s IH]; simpl; [done|].
  destruct (is_digit c) eqn:E; simpl; [|done].
  rewrite flat_map_app, IH. simpl. rewrite app_nil_r.
  destruct (fst (span_digits s)) as [|x a] eqn:Ea.
  - by rewrite (span_digits_nil s Ea).
  - destruct (span_digits_cons s x a Ea) as (t & -> & Hx).
    by rewrite (Hf x t Hx), app_nil_r.
Qed.

Lemma take_length_diff (a b : pystr) :
  take (length (a ++ b) - length b) (a ++ b) = a.
Proof.
  rewrite length_app.
  replace (length a + length b - length b)%nat with (length a) by lia.
  by rewrite take_app_length.
Qed.

Lemma rmatch_lit_seq c r s gs :
  rmatch (Seq (Lit c) r) s gs
  = match expect c s with Some s' => rmatch r s' gs | None => [] end.
Proof.
  simpl. destruct s as [|x s]; simpl; [done|].
  destruct (x =? c); simpl; [by rewrite app_nil_r|done].
Qed.

Lemma rmatch_digits_seq c r s gs :
  is_digit c = false →
  rmatch (Seq (Group Digits1) (Seq (Lit c) r)) s gs
  = match digit_run s with
    | Some (ds, rest) => rmatch (Seq (Lit c) r) rest (gs ++ [ds])
    | None => []
    end.
Proof.
  intros Hc.
  change (rmatch (Seq (Group Digits1) (Seq (Lit c) r)) s gs)
    with (flat_map (fun m => rmatch (Seq (Lit c) r) (fst m) (snd m))
            (map (fun m : pystr * list pystr =>
                    (fst m, snd m ++ [take (length s - length (fst m)) s]))
               (map (fun s' => (s', gs)) (digits1 s)))).
  rewrite !flat_map_concat_map, !map_map, <- flat_map_concat_map. simpl fst. simpl snd.
  rewrite (flat_map_digits1
             (fun s' => rmatch (Seq (Lit c) r) s' (gs ++ [take (length s - length s') s]))).
  - unfold digit_run. pose proof (span_digits_app s) as Happ.
    destruct (span_digits s) as [ds rest]. simpl in *.
    destruct ds as [|x ds]; [done|].
    subst s. by rewrite (take_length_diff (x :: ds) rest).
  - intros x t Hx. rewrite rmatch_lit_seq. simpl.
    destruct (N.eqb_spec x c) as [->|]; [congruence|done].
Qed.

Lemma gan_not_digit : is_digit gan = false.
Proof. vm_compute. reflexivity. Qed.
Lemma nen_not_digit : is_digit nen = false.
Proof. vm_compute. reflexivity. Qed.
Lemma getsu_not_digit : is_digit getsu = false.
Proof. vm_compute. reflexivity. Qed.
Lemma nichi_not_digit : is_digit nichi = false.
Proof. vm_compute. reflexivity. Qed.

Lemma rmatch_year_seq c r s gs :
  is_digit c = false →
  rmatch (Seq (Group (Alt Digits1 (Lit gan))) (Seq (Lit c) r)) s gs
  = match year_run s with
    | Some (y, rest) => rmatch (Seq (Lit c) r) rest (gs ++ [y])
    | None => []
    end.
Proof.
  intros Hc.
  pose proof (rmatch_digits_seq c r s gs Hc) as Hd.
  change (rmatch (Seq (Group Digits1) (Seq (Lit c) r)) s gs)
    with (flat_map (fun m => rmatch (Seq (Lit c) r) (fst m) (snd m))
            (map (fun m : pystr * list pystr =>
                    (fst m, snd m ++ [take (length s - length (fst m)) s]))
               (rmatch Digits1 s gs))) in Hd.
  change (rmatch (Seq (Group (Alt Digits1 (Lit gan))) (Seq (Lit c) r)) s gs)
    with (flat_map (fun m => rmatch (Seq (Lit c) r) (fst m) (snd m))
            (map (fun m : pystr * list pystr =>
                    (fst m, snd m ++ [take (length s - length (fst m)) s]))
               (rmatch Digits1 s gs ++ rmatch (Lit gan) s gs))).
  rewrite map_app, flat_map_app, Hd. unfold year_run.
  destruct (digit_run s) as [[ds rest]|] eqn:Er.
  - assert (rmatch (Lit gan) s gs = []) as ->; [|by rewrite app_nil_r].
    unfold digit_run in Er. destruct (span_digits s) as [a b] eqn:Es.
    destruct a as [|x a]; [done|].
    destruct (span_digits_cons s x a) as (t & -> & Hx); [by rewrite Es|].
    simpl. destruct (N.eqb_spec x gan) as [->|]; [|done].
    rewrite gan_not_digit in Hx. done.
  - simpl. destruct s as [|x s]; simpl; [done|].
    destruct (x =? gan) eqn:Ex; simpl; [|done].
    apply N.eqb_eq in Ex as ->. rewrite app_nil_r.
    replace (length s - 0)%nat with (length s) by lia.
    replace (S (length s) - length s)%nat with 1%nat by lia. done.
Qed.

Lemma rmatch_lits era rs s gs :
  rmatch (cat (lits era ++ rs)) s gs
  = match expect_all era s with Some s' => rmatch (cat rs) s' gs | None => [] end.
Proof.
  revert s. induction era as [|c era IH]; intros s; [done|].
  change (cat (lits (c :: era) ++ rs)) with (Seq (Lit c) (cat (lits era ++ rs))).
  rewrite rmatch_lit_seq. simpl. destruct (expect c s); [apply IH|done].
Qed.

(** The era pattern matches at the head of a string in at most one way. *)
Lemma rmatch_era era s :
  rmatch (era_re era) s []
  = match parse_era era s with
    | Some (y, m, d, rest) => [(rest, [y; m; d])]
    | None => []
    end.
Proof.
  unfold era_re, parse_era. rewrite rmatch_lits.
  destruct (expect_all era s) as [s1|]; [|done].
  change (cat [Group (Alt Digits1 (Lit gan)); Lit nen; Group Digits1; Lit getsu;
               Group Digits1; Lit nichi])
    with (Seq (Group (Alt Digits1 (Lit gan)))
            (Seq (Lit nen) (Seq (Group Digits1)
               (Seq (Lit getsu) (Seq (Group Digits1) (Seq (Lit nichi) Eps)))))).
  rewrite (rmatch_year_seq _ _ _ _ nen_not_digit).
  destruct (year_run s1) as [[y s2]|]; [|done].
  rewrite rmatch_lit_seq. destruct (expect nen s2) as [s3|]; [|done].
  rewrite (rmatch_digits_seq _ _ _ _ getsu_not_digit).
  destruct (digit_run s3) as [[m s4]|]; [|done].
  rewrite rmatch_lit_seq. destruct (expect getsu s4) as [s5|]; [|done].
  rewrite (rmatch_digits_seq _ _ _ _ nichi_not_digit).
  destruct (digit_run s5) as [[d s6]|]; [|done].
  rewrite rmatch_lit_seq. destruct (expect nichi s6) as [s7|]; done.
Qed.

Lemma expect_Some c s s' : expect c s = Some s' ↔ s = c :: s'.
Proof.
  destruct s as [|x s]; simpl; [split; done|].
  destruct (N.eqb_spec x c) as [->|Hne]; split; try done.
  - by intros [= ->].
  - by intros [= ->].
  - intros [= -> _]. done.
Qed.

Lemma expect_cons c s : expect c (c :: s) = Some s.
Proof. by apply expect_Some. Qed.

Lemma expect_all_Some p s s' : expect_all p s = Some s' ↔ s = p ++ s'.
Proof.
  revert s. induction p as [|c p IH]; intros s; simpl.
  - split; [by intros [= ->]|by intros ->].
  - destruct (expect c s) as [t|] eqn:E.
    + apply expect_Some in E as ->. rewrite IH. split; [by intros ->|by intros [= ->]].
    + split; [done|]. intros ->. simpl in E. by rewrite N.eqb_refl in E.
Qed.

Lemma digit_run_Some s ds r :
  digit_run s = Some (ds, r) → s = ds ++ r ∧ digit_string ds.
Proof.
  unfold digit_run. pose proof (span_digits_app s) as Happ.
  pose proof (span_digits_digits s) as Hd.
  destruct (span_digits s) as [a b]. simpl in *.
  destruct a as [|x a]; [done|]. intros [= <- <-]. by repeat split.
Qed.

Lemma digit_run_complete ds c r :
  digit_string ds → is_digit c = false → digit_run (ds ++ c :: r) = Some (ds, c :: r).
Proof.
  intros [Hne Hd] Hc. unfold digit_run. rewrite span_digits_split; [|done..].
  by destruct ds.
Qed.

Lemma digit_run_not_digit c r : is_digit c = false → digit_run (c :: r) = None.
Proof. intros Hc. unfold digit_run. simpl. by rewrite Hc. Qed.

Lemma year_run_Some s y r : year_run s = Some (y, r) → s = y ++ r ∧ year_token y.
Proof.
  unfold year_run. destruct (digit_run s) as [[ds t]|] eqn:E.
  - intros [= <- <-]. apply digit_run_Some in E as [-> Hd]. split; [done|by right].
  - destruct (expect gan s) as [t|] eqn:Eg; [|done].
    intros [= <- <-]. apply expect_Some in Eg as ->. split; [done|by left].
Qed.

Lemma year_run_complete y c r :
  year_token y → is_digit c = false → year_run (y ++ c :: r) = Some (y, c :: r).
Proof.
  intros [->|Hd] Hc; unfold year_run.
  - change ([gan] ++ c :: r) with (gan :: c :: r).
    rewrite (digit_run_not_digit _ _ gan_not_digit). unfold expect.
    by rewrite N.eqb_refl.
  - by rewrite digit_run_complete.
Qed.

Lemma parse_era_sound era s y m d post :
  parse_era era s = Some (y, m, d, post) → era_occurrence era [] y m d post s.
Proof.
  unfold parse_era, era_occurrence.
  destruct (expect_all era s) as [s1|] eqn:E1; [|done].
  destruct (year_run s1) as [[y' s2]|] eqn:E2; [|done].
  destruct (expect nen s2) as [s3|] eqn:E3; [|done].
  destruct (digit_run s3) as [[m' s4]|] eqn:E4; [|done].
  destruct (expect getsu s4) as [s5|] eqn:E5; [|done].
  destruct (digit_run s5) as [[d' s6]|] eqn:E6; [|done].
  destruct (expect nichi s6) as [s7|] eqn:E7; [|done].
  intros [= <- <- <- <-].
  apply expect_all_Some in E1 as ->. apply year_run_Some in E2 as [-> Hy].
  apply expect_Some in E3 as ->. apply digit_run_Some in E4 as [-> Hm].
  apply expect_Some in E5 as ->. apply digit_run_Some in E6 as [-> Hd].
  apply expect_Some in E7 as ->. done.
Qed.

Lemma parse_era_complete era s y m d post :
  era_occurrence era [] y m d post s → parse_era era s = Some (y, m, d, post).
Proof.
  intros (-> & Hy & Hm & Hd). unfold parse_era. simpl.
  assert (expect_all era (era ++ y ++ nen :: m ++ getsu :: d ++ nichi :: post)
          = Some (y ++ nen :: m ++ getsu :: d ++ nichi :: post)) as ->
    by by apply expect_all_Some.
  rewrite (year_run_complete _ _ _ Hy nen_not_digit). cbv beta iota.
  rewrite expect_cons.
  rewrite (digit_run_complete _ _ _ Hm getsu_not_digit). cbv beta iota.
  rewrite expect_cons.
  rewrite (digit_run_complete _ _ _ Hd nichi_not_digit). cbv beta iota.
  by rewrite expect_cons.
Qed.

Lemma era_occurrence_cons era c pre y m d post s :
  era_occurrence era (c :: pre) y m d post (c :: s) ↔ era_occurrence era pre y m d post s.
Proof.
  unfold era_occurrence. simpl. split.
  - intros ([= ->] & ?). done.
  - intros (-> & ?). done.
Qed.

Lemma era_occurrence_head era pre y m d post s :
  era_occurrence era pre y m d post s →
  match pre with
  | [] => parse_era era s = Some (y, m, d, post)
  | c :: pre' => ∃ s', s = c :: s' ∧ era_occurrence era pre' y m d post s'
  end.
Proof.
  destruct pre as [|c pre]; [apply parse_era_complete|].
  intros H. pose proof H as (-> & _). simpl. eexists. split; [done|].
  by apply (era_occurrence_cons era c).
Qed.

(** [re.search] on the era pattern finds the leftmost occurrence, and
    nothing when there is none. *)
Lemma re_search_era era s :
  match re_search (era_re era) s with
  | Some g =>
    ∃ pre y m d post g0,
      g = [g0; y; m; d] ∧ era_occurrence era pre y m d post s ∧ leftmost era pre s
  | None => ¬ matches_era era s
  end.
Proof.
  induction s as [|c s IH].
  - simpl. rewrite rmatch_era.
    destruct (parse_era era []) as [[[[y m] d] rest]|] eqn:E.
    + exists [], y, m, d, rest. eexists. split; [done|].
      split; [by apply parse_era_sound|]. intros ? ? ? ? ? _. simpl. lia.
    + intros (pre & y & m & d & post & H).
      apply era_occurrence_head in H. destruct pre; [congruence|].
      destruct H as (? & ? & _). done.
  - cbn [re_search]. rewrite rmatch_era.
    destruct (parse_era era (c :: s)) as [[[[y m] d] rest]|] eqn:E.
    + exists [], y, m, d, rest. eexists. split; [done|].
      split; [by apply parse_era_sound|]. intros ? ? ? ? ? _. simpl. lia.
    + destruct (re_search (era_re era) s) as [g|].
      * destruct IH as (pre & y & m & d & post & g0 & -> & Hocc & Hleft).
        exists (c :: pre), y, m, d, post, g0. split; [done|].
        split; [by apply era_occurrence_cons|].
        intros pre' y' m' d' post' H'. apply era_occurrence_head in H'.
        destruct pre' as [|c' pre']; [congruence|].
        destruct H' as (s' & [= <- <-] & H'). apply Hleft in H'. simpl. lia.
      * intros (pre & y & m & d & post & H). apply era_occurrence_head in H.
        destruct pre as [|c' pre]; [congruence|].
        destruct H as (s' & [= <- <-] & H). apply IH. by exists pre, y, m, d, post.
Qed.




(** ** Integers as text *)

Lemma int_acc_digits acc s :
  Forall (fun c => is_digit c = true) s → ∃ n, int_acc acc s = Some n.
Proof.
  intros H. revert acc. induction H as [|c s Hc _ IH]; intros acc; simpl; [eauto|].
  unfold is_digit in Hc. destruct (digit_value c); [apply IH|done].
Qed.

Lemma int_or_raise_digits s : digit_string s → int_or_raise s = Ok (digits_value s).
Proof.
  intros [Hne Hd]. unfold int_or_raise, digits_value, py_int.
  destruct s as [|c s]; [done|].
  destruct (int_acc_digits 0 (c :: s) Hd) as [n ->]. done.
Qed.

Lemma dec_digits_length_le fuel : ∀ n acc (k : nat),
  (0 < k)%nat → n < 10 ^ N.of_nat k →
  (length (dec_digits fuel n acc) ≤ length acc + k)%nat.
Proof.
  induction fuel as [|fuel IH]; intros n acc k Hk Hn; simpl; [lia|].
  destruct (N.ltb_spec n 10) as [Hlt|Hge]; simpl; [lia|].
  destruct k as [|[|k]]; [lia| |].
  - change (10 ^ N.of_nat 1) with 10 in Hn. lia.
  - specialize (IH (n / 10) ((48 + n `mod` 10) :: acc) (S k)). simpl in IH.
    assert (n / 10 < 10 ^ N.of_nat (S k)); [|lia].
    apply N.Div0.div_lt_upper_bound.
    replace (N.of_nat (S (S k))) with (N.succ (N.of_nat (S k))) in Hn by lia.
    by rewrite N.pow_succ_r' in Hn.
Qed.

Lemma dec_digits_length_ge fuel n acc :
  (length acc ≤ length (dec_digits fuel n acc))%nat.
Proof.
  revert n acc. induction fuel as [|fuel IH]; intros n acc; simpl; [lia|].
  destruct (n <? 10); simpl; [lia|].
  specialize (IH (n / 10) ((48 + n `mod` 10) :: acc)). simpl in IH. lia.
Qed.

Lemma format_0d_length_ge w n : (w ≤ length (format_0d w n))%nat.
Proof. unfold format_0d. rewrite length_app, length_replicate. lia. Qed.

Lemma format_0d_length w n :
  (0 < w)%nat → n < 10 ^ N.of_nat w → length (format_0d w n) = w.
Proof.
  intros Hw Hn. unfold format_0d, py_str_int. rewrite length_app, length_replicate.
  pose proof (dec_digits_length_le (S (N.to_nat (N.log2 n))) n [] w Hw Hn). simpl in *. lia.
Qed.

(** ** Era dates *)

Lemma era_to_ymd_ok offset g0 y m d :
  year_token y → digit_string m → digit_string d →
  era_to_ymd offset [g0; y; m; d] = Ok (Some (ymd offset y m d)).
Proof.
  intros Hy Hm Hd. unfold era_to_ymd, ymd, year_value, group. simpl.
  rewrite (int_or_raise_digits m Hm), (int_or_raise_digits d Hd).
  destruct (decide (y = [gan])); [done|].
  destruct Hy as [?|Hy]; [done|]. by rewrite (int_or_raise_digits y Hy).
Qed.




(** Every match hands [int] digit runs only, so no conversion fails. *)
Lemma convert_total s : ∃ r, _convert_japanese_date s = Ok r.
Proof.
  unfold _convert_japanese_date.
  pose proof (re_search_era reiwa s) as Ha. destruct (re_search (era_re reiwa) s).
  - destruct Ha as (? & y & m & d & ? & g0 & -> & (_ & Hy & Hm & Hd) & _).
    rewrite era_to_ymd_ok; eauto.
  - pose proof (re_search_era heisei s) as Hb. destruct (re_search (era_re heisei) s).
    + destruct Hb as (? & y & m & d & ? & g0 & -> & (_ & Hy & Hm & Hd) & _).
      rewrite era_to_ymd_ok; eauto.
    + eauto.
Qed.

Lemma ymd_length_ge offset y m d : (8 ≤ length (ymd offset y m d))%nat.
Proof.
  unfold ymd. rewrite !length_app.
  pose proof (format_0d_length_ge 4 (year_value y + offset)).
  pose proof (format_0d_length_ge 2 (digits_value m)).
  pose proof (format_0d_length_ge 2 (digits_value d)). lia.
Qed.

Lemma ymd_length offset y m d :
  year_value y + offset < 10000 → digits_value m < 100 → digits_value d < 100 →
  length (ymd offset y m d) = 8%nat.
Proof.
  intros Hy Hm Hd. unfold ymd. rewrite !length_app.
  rewrite (format_0d_length 4), (format_0d_length 2), (format_0d_length 2); done || lia.
Qed.




Example convert_reiwa8 :
  _convert_japanese_date (u "令和8年2月20日") = Ok (Some (u "20260220")).
Proof. vm_compute. reflexivity. Qed.

Example convert_reiwa_gan :
  _convert_japanese_date (u "令和元年5月1日") = Ok (Some (u "20190501")).
Proof. vm_compute. reflexivity. Qed.

Example convert_heisei31 :
  _convert_japanese_date (u "平成31年4月30日") = Ok (Some (u "20190430")).
Proof. vm_compute. reflexivity. Qed.

Example convert_invalid :
  _convert_japanese_date (u "不正な文字列") = Ok None.
Proof. vm_compute. reflexivity. Qed.

(** ** The date catalog *)

Lemma sabun_loop_cons tr rows target :
  sabun_loop (tr :: rows) target
  = match row_entry tr with
    | Some (d, file_id) =>
      if bool_decide (target = None) || bool_decide (d = target)
      then Ok (Some file_id) else sabun_loop rows target
    | None => sabun_loop rows target
    end.
Proof.
  cbn [sabun_loop]. unfold row_entry, row_date.
  destruct (find (is_tag (u "th")) tr) as [th|]; [|done].
  destruct (find (is_tag (u "td")) tr) as [td|]; [|done].
  destruct (convert_total (strip (get_text th))) as [parsed_date ->].
  by destruct (onclick_file_id (find (is_tag (u "a")) td)).
Qed.

(** The loop returns the first entry that qualifies, and rows without an
    entry do not count. *)
Lemma sabun_loop_entries rows target :
  sabun_loop rows target
  = Ok (match target with
        | None => snd <$> head (omap row_entry rows)
        | Some t => snd <$> List.find (has_date t) (omap row_entry rows)
        end).
Proof.
  induction rows as [|tr rows IH]; [by destruct target|].
  rewrite sabun_loop_cons. cbn [omap list_omap].
  destruct (row_entry tr) as [[d file_id]|]; [|exact IH].
  destruct target as [t|]; simpl; [|done].
  unfold has_date at 1. simpl.
  destruct (bool_decide (d = Some t)); [done|exact IH].
Qed.

Lemma find_elem_of {A} (p : A → bool) (l : list A) x :
  List.find p l = Some x → x ∈ l ∧ p x = true.
Proof.
  intros H. apply find_some in H as [H1 H2]. split; [by apply list_elem_of_In|done].
Qed.


Lemma fetch_sabun_by_catalog (soup : node) (target_date : option pystr) :
  _fetch_sabun_file_id soup target_date
  = match target_date with
    | None =>
      match date_catalog soup with
      | e :: _ => Ok (snd e)
      | [] => Raise (ValueError (u "Failed to retrieve the latest sabun file ID."))
      end
    | Some t =>
      match List.find (has_date t) (date_catalog soup) with
      | Some e => Ok (snd e)
      | None => Raise (ValueError (u "No sabun data found for the date: " ++ t))
      end
    end.
Proof.
  unfold _fetch_sabun_file_id, date_catalog. rewrite sabun_loop_entries.
  destruct target_date as [t|].
  - by destruct (List.find (has_date t) (omap row_entry (sabun_rows soup))).
  - by destruct (omap row_entry (sabun_rows soup)).
Qed.














Example fetch_sabun_by_date :
  _fetch_sabun_file_id sabun_page (Some (u "20260219")) = Ok (u "12345").
Proof. vm_compute. reflexivity. Qed.

Example fetch_sabun_pending_date :
  _fetch_sabun_file_id sabun_page (Some (u "20260220"))
  = Raise (ValueError (u "No sabun data found for the date: 20260220")).
Proof. vm_compute. reflexivity. Qed.

Example fetch_zenken_sample :
  sample_catalog !! u "Tokyo" = Some (u "00023")
  ∧ sample_catalog !! u "All" = Some (u "00010")
  ∧ sample_catalog !! u "Atlantis" = None.
Proof. vm_compute. done. Qed.

(** ** The pipeline *)

(** C9.  For every format, output directory and partition columns,
    [download_all] is [download_prefecture] on the region "All": both are
    the same run of the full-snapshot pipeline. *)
Theorem download_all_is_prefecture_all (capitalize : pystr → pystr)
    (writer : CorporateDataWriter) (format : pystr) (output_dir : option pystr)
    (partition_cols : option (list pystr)) (w : world) :
  download_all capitalize writer format output_dir partition_cols w
  = download_prefecture capitalize writer (u "All") format output_dir partition_cols w.
Proof. reflexivity. Qed.

Lemma bind_run {A B} (m : M A) (k : A → M B) (w : world) :
  (m ≫= k) w
  = match m w with
    | (Ok a, w') => k a w'
    | (Raise e, w') => (Raise e, w')
    end.
Proof. reflexivity. Qed.

Lemma get_page_and_token_ok url w pg inp token :
  http_get w url = Some pg → status_ok pg = true →
  find_token_input (markup pg) = Some inp → get_attr (u "value") inp = Some token →
  _get_page_and_token url w = (Ok (markup pg, token), w).
Proof.
  intros Hg Hs Hf Hv. unfold _get_page_and_token, get_world, mbind, M_bind.
  by rewrite Hg, Hs, Hf, Hv.
Qed.

(** C4 (as amended).  The requested region is capitalized before it is
    looked up in the region catalog.  When the capitalized key is not in the
    catalog, the client raises a [ValueError] naming the region as given,
    which the caller can catch, and touches nothing; the earlier loader
    raises [SystemExit], which ends the process. *)
Theorem region_lookup_spec (capitalize : pystr → pystr) (prefecture : pystr) :
  (∀ writer format_type output_dir partition_cols w pg inp token catalog,
     http_get w ZENKEN_URL = Some pg → status_ok pg = true →
     find_token_input (markup pg) = Some inp → get_attr (u "value") inp = Some token →
     _fetch_zenken_file_ids (markup pg) = Ok catalog →
     (catalog !! capitalize prefecture = None →
      ∃ e, _download_and_process capitalize writer prefecture format_type output_dir
             partition_cols w = (Raise e, w)
           ∧ e = ValueError (u "Unexpected Prefecture or Region: " ++ prefecture)
           ∧ recoverable e = true)
     ∧ (∀ file_id, catalog !! capitalize prefecture = Some file_id →
        _download_and_process capitalize writer prefecture format_type output_dir
          partition_cols w
        = (zip_path ← _download_zip ZENKEN_URL token file_id;
           try_finally
             (uncompress_and_parse writer zip_path format_type output_dir partition_cols)
             (remove_if_exists zip_path)) w))
  ∧ (∀ self w,
       (pref_list self !! capitalize prefecture = None →
        ∃ e, _zip_load capitalize self prefecture w = (Raise e, w)
             ∧ e = SystemExit (u "Unexpected Key Value: " ++ prefecture)
             ∧ aborts_process e = true)
       ∧ (∀ file_id, pref_list self !! capitalize prefecture = Some file_id →
          _zip_load capitalize self prefecture w
          = (zip_path ← loader_download_zip self file_id; _uncompress_file zip_path) w)).
Proof.
  split.
  - intros writer format_type output_dir partition_cols w pg inp token catalog
      Hg Hs Hf Hv Hc.
    unfold _download_and_process.
    rewrite bind_run, (get_page_and_token_ok _ _ _ _ _ Hg Hs Hf Hv). cbv beta iota.
    rewrite bind_run. unfold lift. rewrite Hc. cbv beta iota zeta.
    split.
    + intros ->. eexists. split; [done|]. done.
    + intros file_id E. by rewrite E.
  - intros self w. unfold _zip_load. split.
    + intros ->. eexists. split; [done|]. done.
    + intros file_id E. by rewrite E.
Qed.

Lemma region_lookup_spec_witness :
  _download_and_process capitalize_ascii (new_writer sample_header) (u "Atlantis")
    (u "df") None None sample_world
  = (Raise (ValueError (u "Unexpected Prefecture or Region: Atlantis")), sample_world).
Proof.
  assert (http_get sample_world ZENKEN_URL
          = Some {| status_ok := true; markup := zenken_page |}) as Hg
    by (vm_compute; reflexivity).
  assert (find_token_input zenken_page = Some (token_input (u "3f9a1c"))) as Hf
    by (vm_compute; reflexivity).
  assert (get_attr (u "value") (token_input (u "3f9a1c")) = Some (u "3f9a1c")) as Hv
    by (vm_compute; reflexivity).
  assert (_fetch_zenken_file_ids zenken_page = Ok sample_catalog) as Hc
    by (vm_compute; reflexivity).
  assert (sample_catalog !! capitalize_ascii (u "Atlantis") = None) as Hnone
    by (vm_compute; reflexivity).
  destruct (region_lookup_spec capitalize_ascii (u "Atlantis")) as [H _].
  destruct (H (new_writer sample_header) (u "df") None None sample_world _ _ _ _
              Hg eq_refl Hf Hv Hc) as [H1 _].
  destruct (H1 Hnone) as (e & He & -> & _). exact He.
Defined.

(** C4 as stated fails for the earlier loader: an unknown region ends in
    [SystemExit], not in an error meant to be caught. *)
Lemma region_lookup_counterexample :
  ∃ e, fst (load capitalize_ascii sample_header plain_tokenize plain_pq_write
              (u "Atlantis") (u "df") sample_world)
       = Raise e
       ∧ e = SystemExit (u "Unexpected Key Value: Atlantis")
       ∧ recoverable e = false.
Proof. eexists. split; [vm_compute; reflexivity|]. split; vm_compute; reflexivity. Qed.

(** C8 (as amended).  When the hidden token field is absent from a page
    that was fetched, the client's page fetch raises a [ValueError] naming
    the field and the address, which the caller can catch; a transport
    failure or a rejected status raises [SystemExit]. *)
Theorem get_page_and_token_missing_token (url : pystr) (w : world) :
  (∀ pg,
     http_get w url = Some pg → status_ok pg = true →
     find_token_input (markup pg) = None →
     ∃ e, _get_page_and_token url w = (Raise e, w)
          ∧ e = ValueError (u "Security token '" ++ token_key ++ u "' not found on " ++ url)
          ∧ recoverable e = true)
  ∧ ((http_get w url = None ∨ ∃ pg, http_get w url = Some pg ∧ status_ok pg = false) →
     ∃ e, _get_page_and_token url w = (Raise e, w)
          ∧ e = SystemExit (u "Request to " ++ url ++ u " failed")
          ∧ aborts_process e = true).
Proof.
  unfold _get_page_and_token, get_world, mbind, M_bind. split.
  - intros pg -> -> ->. eexists. split; [done|]. done.
  - intros [->|(pg & -> & ->)]; eexists; (split; [done|]); done.
Qed.

Lemma get_page_and_token_missing_token_witness :
  ∃ e, _get_page_and_token ZENKEN_URL world_no_token = (Raise e, world_no_token)
       ∧ recoverable e = true.
Proof.
  assert (find_token_input zenken_page_no_token = None) as Hf
    by (vm_compute; reflexivity).
  destruct (get_page_and_token_missing_token ZENKEN_URL world_no_token) as [H _].
  destruct (H {| status_ok := true; markup := zenken_page_no_token |} eq_refl eq_refl Hf)
    as (e & He & _ & Hr).
  exists e. split; [exact He|exact Hr].
Defined.

(** C8 as stated fails: a page without the token field does not end the
    process the way an unreachable site does.  The client raises a
    [ValueError]; the earlier loader raises a [TypeError]. *)
Lemma get_page_and_token_counterexample :
  ∃ e1 e2 e3,
    fst (_get_page_and_token ZENKEN_URL world_no_token) = Raise e1
    ∧ fst (_get_page_and_token ZENKEN_URL world_unreachable) = Raise e2
    ∧ fst (ZipLoader_init world_no_token) = Raise e3
    ∧ aborts_process e1 = false ∧ aborts_process e2 = true ∧ aborts_process e3 = false.
Proof.
  do 3 eexists. repeat split; vm_compute; reflexivity.
Qed.

(** ** Archive members *)



Lemma is_csv_name_nil : is_csv_name [] = false.
Proof. reflexivity. Qed.









Example select_member_none :
  select_member [u "readme.txt"; u "data.csv.bak"]
  = Raise (BadZipFile (u "No CSV found in ZIP.")).
Proof. vm_compute. reflexivity. Qed.

(** ** Temporary files *)








Lemma remove_if_exists_run (q : N) (w : world) :
  is_Some (disk w !! q) →
  remove_if_exists q w
  = (Ok tt, mkWorld (http_get w) (http_post w) (block_sizes w) (delete q (disk w))
              (next_name w) (created w) (q :: removed w) (written w)).
Proof.
  intros Hq. unfold remove_if_exists. rewrite bind_run. unfold path_exists.
  cbv beta iota. rewrite bool_decide_eq_true_2 by done.
  unfold os_remove. by destruct Hq as [c ->].
Qed.




(** What [extract_csv] does to the state. *)
Lemma extract_csv_run zip_path w c :
  disk w !! zip_path = Some c →
  extract_csv zip_path w
  = match c with
    | Archive members =>
      match select_member (map fst members) with
      | Raise e => (Raise e, w)
      | Ok target =>
        let q := next_name w in
        match zip_entry target members with
        | Some (Some rows) =>
          (Ok q, mkWorld (http_get w) (http_post w) (block_sizes w)
                   (<[q := Data rows]> (<[q := Bytes]> (disk w))) (q + 1)
                   (q :: created w) (removed w) (written w))
        | _ =>
          (Raise (BadZipFile (u "Bad CRC-32")),
           mkWorld (http_get w) (http_post w) (block_sizes w)
             (<[q := Bytes]> (disk w)) (q + 1) (q :: created w) (removed w) (written w))
        end
      end
    | _ => (Raise (BadZipFile (u "File is not a zip file")), w)
    end.
Proof.
  intros Hd. unfold extract_csv, ZipFile. rewrite !bind_run. unfold read_file. rewrite Hd.
  destruct c as [members| |]; try done.
  cbv beta iota. unfold mret at 1, M_ret at 1. rewrite bind_run. unfold lift.
  destruct (select_member (map fst members)) as [target|e]; [|done].
  rewrite bind_run. unfold NamedTemporaryFile.
  destruct (zip_entry target members) as [[rows|]|]; try done.
Qed.







Lemma get_page_and_token_world url w : snd (_get_page_and_token url w) = w.
Proof.
  unfold _get_page_and_token. rewrite bind_run. unfold get_world. cbv beta iota.
  destruct (http_get w url) as [pg|]; [|done].
  destruct (status_ok pg); [|done].
  destruct (find_token_input (markup pg)) as [inp|]; [|done].
  by destruct (get_attr (u "value") inp).
Qed.

















(** The client on the same site: both files created, both removed. *)
Example client_cleans_up :
  let r := download_prefecture capitalize_ascii (new_writer sample_header) (u "shimane")
             (u "df") None None sample_world in
  (∃ df, fst r = Ok (Frame df) ∧ columns df = sample_header)
  ∧ created (snd r) = [1; 0] ∧ removed (snd r) = [0; 1]
  ∧ disk (snd r) !! 0 = None ∧ disk (snd r) !! 1 = None.
Proof.
  cbv zeta. split; [eexists; split; vm_compute; reflexivity|].
  repeat split; vm_compute; reflexivity.
Qed.

(** The two paths the guarantee leaves out: a data member that cannot be
    read leaves the new data file behind, and a stream that breaks off leaves
    the archive file behind. *)
Example unreadable_member_leaves_data_file :
  let r := download_prefecture capitalize_ascii (new_writer sample_header) (u "shimane")
             (u "df") None None world_bad_member in
  fst r = Raise (BadZipFile (u "Bad CRC-32"))
  ∧ created (snd r) = [1; 0] ∧ removed (snd r) = [0] ∧ disk (snd r) !! 1 = Some Bytes.
Proof. cbv zeta. repeat split; vm_compute; reflexivity. Qed.

Example broken_stream_leaves_archive :
  let r := download_prefecture capitalize_ascii (new_writer sample_header) (u "shimane")
             (u "df") None None world_broken_stream in
  fst r = Raise (SystemExit (u "Request to download ZIP failed"))
  ∧ created (snd r) = [0] ∧ removed (snd r) = [] ∧ disk (snd r) !! 0 = Some Bytes.
Proof. cbv zeta. repeat split; vm_compute; reflexivity. Qed.

(** ** Schema and row counts *)

Lemma assoc_type_string_schema (header : list pystr) name :
  name ∈ header → assoc_type name (string_schema header) = Some pa_string.
Proof.
  induction header as [|h l IH]; simpl; [by intros ?%elem_of_nil|].
  intros Hin. destruct (decide (h = name)); [done|].
  apply IH. apply elem_of_cons in Hin as [->|]; done.
Qed.

(** With a text type declared for every configured column, nothing is left
    to inference. *)
Lemma csv_schema_string (header : list pystr) (rows : csv) :
  csv_schema header (string_schema header) rows = string_schema header.
Proof.
  unfold csv_schema.
  transitivity (imap (const (fun col : pystr => (col, pa_string))) header);
    [|by rewrite imap_const].
  apply imap_ext. intros i name Hi. simpl. rewrite assoc_type_string_schema; [done|].
  by eapply list_elem_of_lookup_2.
Qed.

Lemma string_schema_names header : map fst (string_schema header) = header.
Proof. unfold string_schema. rewrite map_map. simpl. apply map_id. Qed.

Lemma string_schema_all_text header : all_text (string_schema header).
Proof. unfold all_text, string_schema. apply Forall_forall. intros f Hf.
  apply list_elem_of_fmap in Hf as (c & -> & _). done.
Qed.

Lemma pacsv_read_csv_ok rows names types t :
  pacsv_read_csv rows names types = Ok t →
  rows ≠ [] ∧ well_formed_rows names rows = true
  ∧ t = {| t_schema := csv_schema names types rows; t_rows := rows |}.
Proof.
  unfold pacsv_read_csv. destruct rows as [|r rows]; [done|].
  destruct (well_formed_rows names (r :: rows)); [|done]. by intros [= <-].
Qed.

Lemma parse_to_table_schema header rows t :
  parse_to_table (new_writer header) rows = Ok t →
  t_schema t = string_schema header ∧ t_rows t = rows.
Proof.
  unfold parse_to_table. intros (_ & _ & ->)%pacsv_read_csv_ok. simpl.
  by rewrite csv_schema_string.
Qed.

Lemma parse_to_df_table self rows df :
  parse_to_df self rows = Ok df →
  ∃ t, parse_to_table self rows = Ok t ∧ df = to_pandas t.
Proof.
  unfold parse_to_df, parse_to_table.
  destruct (pacsv_read_csv rows (w_headers self) (w_schema self)) as [t|]; [|done].
  intros [= <-]. by exists t.
Qed.

Lemma parse_to_df_columns header rows df :
  parse_to_df (new_writer header) rows = Ok df →
  columns df = header ∧ dtypes df = map (fun _ => pd_object) header
  ∧ length (values df) = length rows.
Proof.
  intros (t & Ht & ->)%parse_to_df_table. apply parse_to_table_schema in Ht as [Hs Hr].
  unfold to_pandas. simpl. rewrite Hs, Hr, string_schema_names, length_map.
  split; [done|]. split; [|done]. unfold string_schema. by rewrite map_map.
Qed.

Lemma concat_split_blocks sizes (rows : csv) : concat (split_blocks sizes rows) = rows.
Proof.
  revert rows. induction sizes as [|n sizes IH]; intros rows.
  - destruct rows; simpl; [done|by rewrite app_nil_r].
  - destruct rows as [|r rows]; [done|]. cbn [split_blocks].
    destruct n as [|n]; [apply IH|]. cbn [concat]. rewrite IH. apply take_drop.
Qed.


Lemma group_rows_add_row key r groups :
  group_rows (add_row key r groups) = S (group_rows groups).
Proof.
  induction groups as [|[k rs] groups IH]; simpl; [done|].
  destruct (decide (k = key)); simpl; [rewrite length_app; simpl; lia|].
  rewrite IH. lia.
Qed.

Lemma group_rows_add_block idxs blk groups :
  group_rows (add_block idxs blk groups) = (group_rows groups + length blk)%nat.
Proof.
  unfold add_block. revert groups. induction blk as [|r blk IH]; intros groups; simpl; [lia|].
  rewrite IH, group_rows_add_row. lia.
Qed.

Lemma consume_blocks_rows idxs (check : csv → result csv) blks groups groups' :
  (∀ blk, check blk = Ok blk ∨ ∃ e, check blk = Raise e) →
  consume_blocks idxs (map check blks) groups = Ok groups' →
  group_rows groups' = (group_rows groups + length (concat blks))%nat.
Proof.
  intros Hcheck. revert groups. induction blks as [|blk blks IH]; intros groups; simpl.
  - intros [= <-]. lia.
  - destruct (Hcheck blk) as [->|[e ->]]; [|done].
    intros H. rewrite (IH _ H), group_rows_add_block, length_app. lia.
Qed.





Lemma without_elem {A} idxs (l : list A) x : x ∈ without idxs l → x ∈ l.
Proof.
  unfold without. intros Hx. apply list_elem_of_fmap in Hx as ([i y] & -> & Hin).
  apply list_elem_of_In, filter_In in Hin as [Hin _]. apply list_elem_of_In in Hin.
  apply list_elem_of_lookup in Hin as [j Hj]. apply list_lookup_imap_Some in Hj as (z & Hz & [= _ ->]).
  by eapply list_elem_of_lookup_2.
Qed.

Lemma without_imap_map {A B} (f : A → B) (g : nat → nat) (p : nat * B → bool)
    (q : nat * A → bool) (l : list A) :
  (∀ i x, p (i, f x) = q (i, x)) →
  map snd (List.filter p (imap (fun i x => (g i, x)) (map f l)))
  = map f (map snd (List.filter q (imap (fun i x => (g i, x)) l))).
Proof.
  intros Hpq. revert g. induction l as [|x l IH]; intros g; [done|].
  cbn [map]. rewrite !imap_cons. unfold compose. cbn [List.filter]. rewrite Hpq.
  pose proof (IH (fun i => g (S i))) as IH'.
  destruct (q (g 0%nat, x)); cbn [map snd]; by rewrite <- IH'.
Qed.

Lemma without_map {A B} (f : A → B) idxs (l : list A) :
  without idxs (map f l) = map f (without idxs l).
Proof. unfold without. by apply (without_imap_map f (fun i => i)). Qed.

Lemma without_nil {A} (l : list A) : without [] l = l.
Proof.
  unfold without.
  assert (∀ g : nat → nat,
            map snd (List.filter (fun p : nat * A => negb (bool_decide (fst p ∈ @nil nat)))
                       (imap (fun i x => (g i, x)) l)) = l) as H; [|apply (H (fun i => i))].
  induction l as [|x l IH]; intros g; [done|]. rewrite imap_cons. unfold compose.
  cbn [List.filter].
  rewrite bool_decide_eq_false_2 by apply not_elem_of_nil. cbn [negb map snd].
  f_equal. apply (IH (fun i => g (S i))).
Qed.

Lemma field_positions_lookup name k schema i :
  i ∈ field_positions name k schema →
  (k ≤ i)%nat ∧ ∃ t, schema !! (i - k)%nat = Some (name, t).
Proof.
  revert k. induction schema as [|[n t] schema IH]; intros k; simpl; [by intros ?%elem_of_nil|].
  destruct (decide (n = name)) as [->|].
  - intros [->|Hin]%elem_of_cons.
    + split; [lia|]. exists t. by replace (k - k)%nat with 0%nat by lia.
    + destruct (IH _ Hin) as (Hle & t' & Ht'). split; [lia|]. exists t'.
      by replace (i - k)%nat with (S (i - S k)) by lia.
  - intros Hin. destruct (IH _ Hin) as (Hle & t' & Ht'). split; [lia|]. exists t'.
    by replace (i - k)%nat with (S (i - S k)) by lia.
Qed.

(** The partition indices are the positions of the partition columns. *)
Lemma partition_indices_lookup cols header idxs :
  partition_indices cols (string_schema header) = Ok idxs →
  Forall2 (fun c i => header !! i = Some c) cols idxs.
Proof.
  revert idxs. induction cols as [|c cols IH]; intros idxs; simpl.
  - intros [= <-]. constructor.
  - destruct (field_positions c 0 (string_schema header)) as [|i [|? ?]] eqn:E; try done.
    destruct (partition_indices cols (string_schema header)) as [is'|]; [|done].
    intros [= <-]. constructor; [|by apply IH].
    destruct (field_positions_lookup c 0 (string_schema header) i) as (_ & t & Ht).
    { rewrite E. by left. }
    replace (i - 0)%nat with i in Ht by lia. unfold string_schema in Ht.
    rewrite list_lookup_fmap in Ht. destruct (header !! i); [|done]. by injection Ht as ->.
Qed.

(** What a successful dataset write has written. *)
Lemma parse_to_parquet_files_ok header sizes rows partition_cols files :
  parse_to_parquet_files (new_writer header) sizes rows partition_cols = Ok files →
  ∃ idxs groups,
    partition_indices (default [] partition_cols) (string_schema header) = Ok idxs
    ∧ files = flat_map (fun g =>
                map (fun rs => {| pf_partition := fst g;
                                  pf_schema := without idxs (string_schema header);
                                  pf_rows := rs |})
                    (chunks max_rows_per_file (snd g))) groups
    ∧ group_rows groups = length rows.
Proof.
  unfold parse_to_parquet_files, pacsv_open_csv. simpl w_headers. simpl w_schema.
  pose proof (concat_split_blocks sizes rows) as Hcat.
  destruct (split_blocks sizes rows) as [|b bs]; [done|].
  destruct (well_formed_rows header b) eqn:Eb; [|done].
  rewrite csv_schema_string. unfold write_dataset.
  destruct (partition_indices (default [] partition_cols) (string_schema header))
    as [idxs|]; [|done].
  set (check := fun blk : csv =>
                  if well_formed_rows header blk then Ok blk else Raise ArrowInvalid).
  destruct (consume_blocks idxs (map check (b :: bs)) []) as [groups|] eqn:Ec; [|done].
  intros [= <-]. exists idxs, groups. split; [done|]. split; [done|].
  apply consume_blocks_rows in Ec.
  - rewrite Ec, Hcat. done.
  - intros blk. unfold check. destruct (well_formed_rows header blk); eauto.
Qed.


Lemma parse_to_parquet_files_schema header sizes rows partition_cols files :
  parse_to_parquet_files (new_writer header) sizes rows partition_cols = Ok files →
  ∃ idxs,
    Forall2 (fun c i => header !! i = Some c) (default [] partition_cols) idxs
    ∧ ∀ f, f ∈ files →
        map fst (pf_schema f) = without idxs header ∧ all_text (pf_schema f)
        ∧ (default [] partition_cols = [] → map fst (pf_schema f) = header).
Proof.
  intros (idxs & groups & Hidx & -> & _)%parse_to_parquet_files_ok.
  exists idxs. split; [by apply partition_indices_lookup|].
  intros f Hf. apply list_elem_of_In, in_flat_map in Hf as (g & _ & Hf).
  apply in_map_iff in Hf as (rs & <- & _). simpl.
  split; [by rewrite <- without_map, string_schema_names|].
  split.
  - apply Forall_forall. intros x Hx%without_elem.
    pose proof (string_schema_all_text header) as Hall.
    unfold all_text in Hall. rewrite Forall_forall in Hall. by apply Hall.
  - intros Hnil. rewrite Hnil in Hidx. injection Hidx as <-.
    by rewrite without_nil, string_schema_names.
Qed.

Lemma read_rows_run p w rows w' :
  read_rows p w = (Ok rows, w') → w' = w ∧ disk w !! p = Some (Data rows).
Proof.
  unfold read_rows. rewrite bind_run. unfold read_file.
  destruct (disk w !! p) as [[| |]|]; try done. by intros [= <- <-].
Qed.

Lemma parse_to_df_run self p w df w' :
  _parse_to_df self p w = (Ok df, w') →
  w' = w ∧ ∃ rows, disk w !! p = Some (Data rows) ∧ parse_to_df self rows = Ok df.
Proof.
  unfold _parse_to_df. rewrite bind_run.
  destruct (read_rows p w) as [[rows|e] w1] eqn:E; [|done].
  apply read_rows_run in E as [-> Hd]. unfold lift.
  intros [= H <-]. split; [done|]. by exists rows.
Qed.


(** C3 (as amended).  Whatever the accepted data file and however the
    streaming reader cuts it into blocks: the in-memory table of the client,
    and the table of the earlier [read_csv], have exactly the configured
    header as their column list, in count and order, every column of text
    type; every file of a written dataset has text columns only, namely the
    configured header in order without the partition columns, and so exactly
    the header when no partition columns are given. *)
Theorem schema_enforced (header : list pystr) :
  (∀ rows t,
     parse_to_table (new_writer header) rows = Ok t →
     map fst (t_schema t) = header ∧ all_text (t_schema t))
  ∧ (∀ rows df,
       parse_to_df (new_writer header) rows = Ok df →
       columns df = header ∧ dtypes df = map (fun _ => pd_object) header)
  ∧ (∀ p w df w',
       _parse_to_df (new_writer header) p w = (Ok df, w') →
       columns df = header ∧ dtypes df = map (fun _ => pd_object) header)
  ∧ (∀ pd_tokenize rows df,
       read_csv header pd_tokenize rows = Ok df →
       columns df = header ∧ dtypes df = map (fun _ => pd_object) header)
  ∧ (∀ sizes rows partition_cols files,
       parse_to_parquet_files (new_writer header) sizes rows partition_cols = Ok files →
       ∃ idxs,
         Forall2 (fun c i => header !! i = Some c) (default [] partition_cols) idxs
         ∧ ∀ f, f ∈ files →
             map fst (pf_schema f) = without idxs header ∧ all_text (pf_schema f)
             ∧ (default [] partition_cols = [] → map fst (pf_schema f) = header)).
Proof.
  split; [|split; [|split; [|split]]].
  - intros rows t [-> _]%parse_to_table_schema.
    split; [apply string_schema_names|apply string_schema_all_text].
  - intros rows df (H1 & H2 & _)%parse_to_df_columns. done.
  - intros p w df w' (_ & rows & _ & (H1 & H2 & _)%parse_to_df_columns)%parse_to_df_run.
    done.
  - intros pd_tokenize rows df. unfold read_csv, pd_read_csv.
    destruct (pd_tokenize header rows); [|done]. by intros [= <-].
  - intros sizes rows partition_cols files. apply parse_to_parquet_files_schema.
Qed.

Lemma schema_enforced_witness :
  ∃ df, parse_to_df (new_writer sample_header) sample_rows = Ok df
        ∧ columns df = sample_header
        ∧ dtypes df = [pd_object; pd_object; pd_object].
Proof.
  destruct (schema_enforced sample_header) as (_ & H & _).
  eexists. split; [vm_compute; reflexivity|].
  apply (H sample_rows). vm_compute. reflexivity.
Defined.

(** C3 as stated fails for a partitioned dataset: the partition column is
    not among the columns of the written files. *)
Lemma schema_enforced_counterexample :
  ∃ f1 f2,
    parse_to_parquet_files (new_writer sample_header) [1%nat] sample_rows
      (Some [u "sequence_number"]) = Ok [f1; f2]
    ∧ map fst (pf_schema f1) = [u "corporate_number"; u "name"]
    ∧ map fst (pf_schema f2) = [u "corporate_number"; u "name"]
    ∧ map fst (pf_schema f1) ≠ sample_header
    ∧ pf_partition f1 = [u "1"] ∧ pf_partition f2 = [u "2"].
Proof.
  do 2 eexists. split; [vm_compute; reflexivity|].
  repeat split; try (vm_compute; reflexivity). vm_compute. discriminate.
Qed.






(** * Further properties *)

(** ** File identifiers *)

Lemma rmatch_digit5 (s : pystr) (gs : list pystr) :
  rmatch digit5_re s gs = if digit5_here s then [(drop 5 s, gs)] else [].
Proof.
  change digit5_re
    with (Seq Digit (Seq Digit (Seq Digit (Seq Digit (Seq Digit Eps))))).
  destruct s as [|a [|b [|c [|d [|e s]]]]]; cbn [rmatch flat_map app fst snd digit5_here];
    try done.
  - by destruct (is_digit a).
  - destruct (is_digit a); cbn [flat_map app fst snd andb]; [|done].
    by destruct (is_digit b).
  - destruct (is_digit a); cbn [flat_map app fst snd andb]; [|done].
    destruct (is_digit b); cbn [flat_map app fst snd andb]; [|done].
    by destruct (is_digit c).
  - destruct (is_digit a); cbn [flat_map app fst snd andb]; [|done].
    destruct (is_digit b); cbn [flat_map app fst snd andb]; [|done].
    destruct (is_digit c); cbn [flat_map app fst snd andb]; [|done].
    by destruct (is_digit d).
  - destruct (is_digit a); cbn [flat_map app fst snd andb]; [|done].
    destruct (is_digit b); cbn [flat_map app fst snd andb]; [|done].
    destruct (is_digit c); cbn [flat_map app fst snd andb]; [|done].
    destruct (is_digit d); cbn [flat_map app fst snd andb]; [|done].
    by destruct (is_digit e).
Qed.

Lemma digit5_here_take (s : pystr) : digit5_here s = true → file_id_shape (take 5 s).
Proof.
  destruct s as [|a [|b [|c [|d [|e s]]]]]; simpl; try done.
  intros H. repeat (apply andb_prop in H as [H ?]).
  split; [done|]. by repeat constructor.
Qed.

(** [re.search(r'\d{5}', s)] finds the first run of five digits. *)
Lemma re_search_digit5 (s : pystr) m :
  re_search digit5_re s = Some m →
  ∃ pre post, m = [take 5 post] ∧ s = pre ++ post ∧ digit5_here post = true
              ∧ ∀ pre1 pre2, pre = pre1 ++ pre2 → pre2 ≠ [] → digit5_here (pre2 ++ post) = false.
Proof.
  induction s as [|c s IH]; cbn [re_search]; rewrite rmatch_digit5.
  - done.
  - destruct (digit5_here (c :: s)) eqn:E.
    + intros [= <-]. exists [], (c :: s). cbn [fst snd].
      split.
      { f_equal. f_equal. rewrite length_drop.
        destruct s as [|? [|? [|? [|? ?]]]]; try done. simpl. f_equal. lia. }
      split; [done|]. split; [done|].
      intros pre1 pre2 Hp Hne. by destruct pre1, pre2.
    + intros H. destruct (IH H) as (pre & post & -> & -> & Hpost & Hleft).
      exists (c :: pre), post. split; [done|]. split; [done|]. split; [done|].
      intros pre1 pre2 Hp Hne. destruct pre1 as [|x pre1].
      * simpl in Hp. subst pre2. exact E.
      * injection Hp as -> ->. by apply (Hleft pre1).
Qed.

Lemma onclick_file_id_shape a_tag file_id :
  onclick_file_id a_tag = Some file_id → file_id_shape file_id.
Proof.
  unfold onclick_file_id. destruct a_tag as [a|]; [|done].
  destruct (get_attr (u "onclick") a) as [oc|]; [|done].
  destruct (re_search digit5_re oc) as [m|] eqn:E; [|done].
  intros [= <-]. apply re_search_digit5 in E as (pre & post & -> & _ & Hpost & _).
  by apply digit5_here_take.
Qed.






(** X2.  The identifier the date catalog gives, for the latest file or for
    a date, is a run of exactly five decimal digits. *)
Theorem sabun_file_id_five_digits (soup : node) (target_date : option pystr) file_id :
  _fetch_sabun_file_id soup target_date = Ok file_id → file_id_shape file_id.
Proof.
  rewrite fetch_sabun_by_catalog. unfold date_catalog. intros H.
  assert (∃ d, (d, file_id) ∈ omap row_entry (sabun_rows soup)) as [d Hin].
  { destruct target_date as [t|].
    - destruct (List.find _ _) as [[d i]|] eqn:E; [|done]. injection H as <-.
      apply find_elem_of in E as [Hin _]. by exists d.
    - destruct (omap row_entry (sabun_rows soup)) as [|[d i] l]; [done|].
      injection H as <-. exists d. by left. }
  apply list_elem_of_omap in Hin as (tr & _ & He). unfold row_entry in He.
  destruct (find (is_tag (u "th")) tr); [|done].
  destruct (find (is_tag (u "td")) tr) as [td|]; [|done].
  destruct (onclick_file_id (find (is_tag (u "a")) td)) eqn:E; [|done].
  injection He as _ <-. by eapply onclick_file_id_shape.
Qed.

Lemma sabun_file_id_five_digits_witness : file_id_shape (u "12345").
Proof.
  apply (sabun_file_id_five_digits sabun_page None). vm_compute. reflexivity.
Defined.



Example legacy_resolver_needs_links :
  _fetch_file_ids zenken_page_pending = Raise AttributeError.
Proof. vm_compute. reflexivity. Qed.

(** ** The region catalog *)

Lemma zenken_rows_foldl rows acc :
  forallb has_name_cell rows = true →
  zenken_rows rows acc = Ok (foldl insert_entry acc (omap region_entry rows)).
Proof.
  revert acc. induction rows as [|row rows IH]; intros acc Hall; [done|].
  simpl in Hall. apply andb_prop in Hall as [Hrow Hall].
  cbn [zenken_rows omap list_omap]. unfold region_entry, has_name_cell in *.
  destruct (find _ row) as [dt|]; [|done].
  destruct (onclick_file_id (find (is_tag (u "a")) row)) as [file_id|]; by rewrite IH.
Qed.

Lemma zenken_rows_raise rows acc :
  forallb has_name_cell rows = false → zenken_rows rows acc = Raise AttributeError.
Proof.
  revert acc. induction rows as [|row rows IH]; intros acc Hall; [done|].
  simpl in Hall. cbn [zenken_rows]. unfold has_name_cell in Hall.
  destruct (find _ row) as [dt|]; [|done]. simpl in Hall.
  destruct (onclick_file_id (find (is_tag (u "a")) row)); by apply IH.
Qed.

(** Inserting entries one after the other leaves, under each key, the
    value of the last entry with that key. *)
Lemma foldl_insert_entry_lookup (es : list (pystr * pystr)) (acc : gmap pystr pystr) k :
  foldl insert_entry acc es !! k
  = match last (List.filter (has_key k) es) with
    | Some e => Some (snd e)
    | None => acc !! k
    end.
Proof.
  revert acc. induction es as [|[k' v] es IH]; intros acc; [done|].
  cbn [foldl List.filter]. rewrite IH. unfold has_key at 2, insert_entry at 1. simpl.
  destruct (decide (k' = k)) as [->|Hne].
  - rewrite bool_decide_eq_true_2 by done. rewrite last_cons.
    destruct (last (List.filter (has_key k) es)); [done|]. simpl. apply lookup_insert_eq.
  - rewrite bool_decide_eq_false_2 by done.
    destruct (last (List.filter (has_key k) es)); [done|]. by apply lookup_insert_ne.
Qed.

(** X4.  The region catalog holds, under each region name, the identifier
    of the last row of the region table that carries that name and a link;
    rows without a link add nothing, and a row without a name cell makes the
    resolver raise [AttributeError]. *)
Theorem region_catalog_lookup (soup : node) (t : node) :
  unicode_table soup = Ok t →
  if forallb has_name_cell (region_rows soup)
  then ∃ c, _fetch_zenken_file_ids soup = Ok c
            ∧ ∀ k, c !! k
                   = snd <$> last (List.filter (has_key k) (omap region_entry (region_rows soup)))
  else _fetch_zenken_file_ids soup = Raise AttributeError.
Proof.
  intros Ht. unfold region_rows, _fetch_zenken_file_ids. rewrite Ht.
  destruct (forallb has_name_cell (find_all (is_tag (u "dl")) t)) eqn:E.
  - eexists. split; [by apply zenken_rows_foldl|].
    intros k. rewrite foldl_insert_entry_lookup.
    by destruct (last (List.filter (has_key k) _)).
  - by apply zenken_rows_raise.
Qed.

Lemma region_catalog_lookup_witness :
  ∃ c, _fetch_zenken_file_ids zenken_page_pending = Ok c
       ∧ c !! u "Tokyo" = Some (u "00099") ∧ c !! u "All" = None.
Proof.
  pose proof (region_catalog_lookup zenken_page_pending region_table_pending) as H.
  assert (unicode_table zenken_page_pending = Ok region_table_pending) as Ht
    by (vm_compute; reflexivity).
  specialize (H Ht).
  assert (forallb has_name_cell (region_rows zenken_page_pending) = true) as Hall
    by (vm_compute; reflexivity).
  rewrite Hall in H. destruct H as (c & Hc & Hk).
  exists c. split; [exact Hc|]. rewrite !Hk. split; vm_compute; reflexivity.
Defined.

(** ** The canonical date *)

Lemma dec_digits_ascii fuel n acc :
  Forall ascii_digit acc → Forall ascii_digit (dec_digits fuel n acc).
Proof.
  revert n acc. induction fuel as [|fuel IH]; intros n acc Hacc; simpl; [done|].
  assert (ascii_digit (48 + n `mod` 10)) as Hd.
  { unfold ascii_digit. assert (n `mod` 10 < 10) as Hlt by (by apply N.mod_upper_bound).
    revert Hlt. generalize (n `mod` 10). intros r Hr. lia. }
  destruct (n <? 10); [by constructor|]. apply IH. by constructor.
Qed.

Lemma format_0d_ascii w n : Forall ascii_digit (format_0d w n).
Proof.
  unfold format_0d, py_str_int. apply Forall_app. split.
  - apply Forall_replicate. unfold ascii_digit. lia.
  - apply dec_digits_ascii. constructor.
Qed.

Lemma ymd_ascii offset y m d : Forall ascii_digit (ymd offset y m d).
Proof. unfold ymd. rewrite !Forall_app. repeat split; apply format_0d_ascii. Qed.

(** Whatever the converter returns is the canonical date of an occurrence
    of one of the two eras. *)
Lemma convert_some_ymd s key :
  _convert_japanese_date s = Ok (Some key) →
  ∃ offset y m d,
    (offset = 2018 ∨ offset = 1988) ∧ year_token y ∧ digit_string m ∧ digit_string d
    ∧ key = ymd offset y m d.
Proof.
  unfold _convert_japanese_date.
  pose proof (re_search_era reiwa s) as Ha. destruct (re_search (era_re reiwa) s).
  - destruct Ha as (? & y & m & d & ? & g0 & -> & (_ & Hy & Hm & Hd) & _).
    rewrite era_to_ymd_ok by done. intros [= <-]. exists 2018, y, m, d. eauto 10.
  - pose proof (re_search_era heisei s) as Hb. destruct (re_search (era_re heisei) s); [|done].
    destruct Hb as (? & y & m & d & ? & g0 & -> & (_ & Hy & Hm & Hd) & _).
    rewrite era_to_ymd_ok by done. intros [= <-]. exists 1988, y, m, d. eauto 10.
Qed.


(** X5.  A converted date is written in ASCII digits only, at least eight
    of them, whatever digits (full-width ones, say) the input uses. *)
Theorem converted_date_ascii_digits (s key : pystr) :
  _convert_japanese_date s = Ok (Some key) →
  Forall ascii_digit key ∧ (8 ≤ length key)%nat.
Proof.
  intros (offset & y & m & d & _ & _ & _ & _ & ->)%convert_some_ymd.
  split; [apply ymd_ascii|apply ymd_length_ge].
Qed.

Lemma converted_date_ascii_digits_witness :
  Forall ascii_digit (u "20260220") ∧ (8 ≤ length (u "20260220"))%nat.
Proof.
  apply (converted_date_ascii_digits (u "令和８年２月２０日")). vm_compute. reflexivity.
Defined.

Lemma digit_value_ascii d : d < 10 → digit_value (0x30 + d) = Some d.
Proof.
  intros H.
  assert (d = 0 ∨ d = 1 ∨ d = 2 ∨ d = 3 ∨ d = 4 ∨ d = 5 ∨ d = 6 ∨ d = 7 ∨ d = 8 ∨ d = 9)
    as Hd by lia.
  repeat (destruct Hd as [->|Hd]; [vm_compute; reflexivity|]).
  subst d. vm_compute. reflexivity.
Qed.

Lemma int_acc_app a ds rest :
  int_acc a (ds ++ rest)
  = match int_acc a ds with Some v => int_acc v rest | None => None end.
Proof.
  revert a. induction ds as [|c ds IH]; intros a; simpl; [done|].
  destruct (digit_value c); [apply IH|done].
Qed.

(** The digits written for [n] read back as [n]. *)
Lemma dec_digits_value fuel : ∀ n acc,
  n < 2 ^ N.of_nat fuel →
  ∃ ds, dec_digits fuel n acc = ds ++ acc
        ∧ ∀ a, int_acc a ds = Some (a * 10 ^ N.of_nat (length ds) + n).
Proof.
  induction fuel as [|fuel IH]; intros n acc Hn.
  - exists []. simpl in *. split; [done|]. intros a. f_equal. lia.
  - cbn [dec_digits].
    assert (n `mod` 10 < 10) as Hmod by (by apply N.mod_upper_bound).
    destruct (N.ltb_spec n 10) as [Hlt|Hge]; cbv zeta.
    + exists [48 + n `mod` 10]. split; [done|]. intros a. simpl.
      rewrite digit_value_ascii by done. f_equal. rewrite N.mod_small by done.
      change (N.of_nat 1) with 1. lia.
    + destruct (IH (n / 10) ((48 + n `mod` 10) :: acc)) as (ds & Hds & Hval).
      { apply N.Div0.div_lt_upper_bound.
        replace (N.of_nat (S fuel)) with (N.succ (N.of_nat fuel)) in Hn by lia.
        rewrite N.pow_succ_r' in Hn. lia. }
      exists (ds ++ [48 + n `mod` 10]). split; [by rewrite Hds, <- app_assoc|].
      intros a. rewrite int_acc_app, Hval. simpl. rewrite digit_value_ascii by done.
      f_equal. rewrite length_app. simpl.
      replace (N.of_nat (length ds + 1)) with (N.succ (N.of_nat (length ds))) by lia.
      rewrite N.pow_succ_r'. pose proof (N.div_mod n 10) as Hdm.
      revert Hdm. generalize (n / 10) (n `mod` 10) (10 ^ N.of_nat (length ds)).
      intros q r t Hdm. lia.
Qed.

Lemma py_str_int_nonempty n : py_str_int n ≠ [].
Proof.
  unfold py_str_int. cbn [dec_digits]. intros H. apply (f_equal length) in H.
  destruct (n <? 10); [done|].
  pose proof (dec_digits_length_ge (N.to_nat (N.log2 n)) (n / 10) [48 + n `mod` 10]).
  simpl in *. lia.
Qed.

Lemma py_str_int_value n a : int_acc a (py_str_int n)
                             = Some (a * 10 ^ N.of_nat (length (py_str_int n)) + n).
Proof.
  unfold py_str_int.
  destruct (dec_digits_value (S (N.to_nat (N.log2 n))) n []) as (ds & Hds & Hval).
  - replace (N.of_nat (S (N.to_nat (N.log2 n)))) with (N.succ (N.log2 n)) by lia.
    destruct (decide (n = 0)) as [->|Hn]; [done|]. apply N.log2_spec. lia.
  - rewrite app_nil_r in Hds. rewrite Hds. apply Hval.
Qed.

Lemma int_acc_zeros k s : int_acc 0 (replicate k 0x30 ++ s) = int_acc 0 s.
Proof. induction k as [|k IH]; [done|]. simpl. exact IH. Qed.

Lemma py_int_format_0d w n : py_int (format_0d w n) = Some n.
Proof.
  unfold py_int, format_0d.
  destruct (replicate (w - length (py_str_int n)) 48 ++ py_str_int n) as [|c l] eqn:E.
  - apply app_eq_nil in E as [_ E]. by apply py_str_int_nonempty in E.
  - rewrite <- E, int_acc_zeros, py_str_int_value. f_equal; lia.
Qed.

(** X6.  The canonical date reads back: whatever the converter returns is
    the year, the month and the day written one after the other, and when
    the year is below 10000 and month and day are below 100 it has eight
    characters of which the first four read as the year, the next two as the
    month and the last two as the day. *)
Theorem converted_date_decodes (s key : pystr) :
  _convert_japanese_date s = Ok (Some key) →
  ∃ year month day,
    key = format_0d 4 year ++ format_0d 2 month ++ format_0d 2 day
    ∧ 1988 ≤ year
    ∧ (year < 10000 → month < 100 → day < 100 →
       length key = 8%nat
       ∧ py_int (take 4 key) = Some year
       ∧ py_int (take 2 (drop 4 key)) = Some month
       ∧ py_int (drop 6 key) = Some day).
Proof.
  intros (offset & y & m & d & Hoff & _ & _ & _ & ->)%convert_some_ymd.
  exists (year_value y + offset), (digits_value m), (digits_value d).
  split; [done|]. split; [destruct Hoff as [->| ->]; lia|].
  intros Hy Hm Hd. split; [by apply ymd_length|]. unfold ymd.
  pose proof (format_0d_length 4 (year_value y + offset)) as L4.
  pose proof (format_0d_length 2 (digits_value m)) as L2.
  pose proof (format_0d_length 2 (digits_value d)) as L2'.
  specialize (L4 ltac:(lia) Hy). specialize (L2 ltac:(lia) Hm). specialize (L2' ltac:(lia) Hd).
  split; [|split].
  - rewrite take_app_length' by done. apply py_int_format_0d.
  - rewrite drop_app_length' by done. rewrite take_app_length' by done.
    apply py_int_format_0d.
  - change 6%nat with (4 + 2)%nat. rewrite drop_app_add' by done.
    rewrite drop_app_length' by done. apply py_int_format_0d.
Qed.

Lemma converted_date_decodes_witness :
  ∃ year month day,
    u "20190430" = format_0d 4 year ++ format_0d 2 month ++ format_0d 2 day
    ∧ 1988 ≤ year
    ∧ (year < 10000 → month < 100 → day < 100 →
       length (u "20190430") = 8%nat
       ∧ py_int (take 4 (u "20190430")) = Some year
       ∧ py_int (take 2 (drop 4 (u "20190430"))) = Some month
       ∧ py_int (drop 6 (u "20190430")) = Some day).
Proof.
  apply (converted_date_decodes (u "平成31年4月30日")). vm_compute. reflexivity.
Defined.




(** ** The pipeline end to end *)

Lemma download_zip_run url token file_id w c :
  http_post w url token file_id = Body c true →
  _download_zip url token file_id w
  = (Ok (next_name w),
     mkWorld (http_get w) (http_post w) (block_sizes w)
       (<[next_name w := c]> (<[next_name w := Bytes]> (disk w))) (next_name w + 1)
       (next_name w :: created w) (removed w) (written w)).
Proof.
  intros Hp. unfold _download_zip. rewrite bind_run. unfold get_world. cbv beta iota.
  rewrite Hp. rewrite bind_run. unfold NamedTemporaryFile. cbv beta iota zeta.
  rewrite bind_run. unfold write_file. done.
Qed.

Lemma read_rows_ok p w rows :
  disk w !! p = Some (Data rows) → read_rows p w = (Ok rows, w).
Proof. intros H. unfold read_rows. rewrite bind_run. unfold read_file. by rewrite H. Qed.

Lemma parse_to_df_ok self p w rows :
  disk w !! p = Some (Data rows) → _parse_to_df self p w = (parse_to_df self rows, w).
Proof. intros H. unfold _parse_to_df. by rewrite bind_run, (read_rows_ok _ _ _ H). Qed.

Lemma parse_to_parquet_dataset_ok self p d pc w rows :
  disk w !! p = Some (Data rows) →
  _parse_to_parquet_dataset self p d pc w
  = match parse_to_parquet_files self (block_sizes w) rows pc with
    | Ok files =>
      (Ok d, mkWorld (http_get w) (http_post w) (block_sizes w) (disk w) (next_name w)
               (created w) (removed w) ((d, files) :: written w))
    | Raise e => (Raise e, w)
    end.
Proof.
  intros H. unfold _parse_to_parquet_dataset. rewrite bind_run, (read_rows_ok _ _ _ H).
  rewrite bind_run. unfold get_world. cbv beta iota. rewrite bind_run. unfold lift.
  by destruct (parse_to_parquet_files self (block_sizes w) rows pc).
Qed.

(** [uncompress_and_parse] on an archive whose selected member holds
    [rows]: the outcome, and what is left of the data file. *)
Lemma uncompress_and_parse_run self zip_path fmt out pc w members target rows :
  disk w !! zip_path = Some (Archive members) →
  select_member (map fst members) = Ok target →
  zip_entry target members = Some (Some rows) →
  let q := next_name w in
  let r := uncompress_and_parse self zip_path fmt out pc w in
  fst r
  = (if decide (fmt = u "df") then
       match parse_to_df self rows with Ok df => Ok (Frame df) | Raise e => Raise e end
     else if decide (fmt = u "parquet") then
       match parse_to_parquet_files self (block_sizes w) rows pc with
       | Ok _ => Ok (Dir (dataset_dir out (q + 1)))
       | Raise e => Raise e
       end
     else Raise (ValueError (u "Invalid format. Use 'df' or 'parquet'.")))
  ∧ disk (snd r) = delete q (disk w)
  ∧ created (snd r) = q :: created w
  ∧ removed (snd r) = q :: removed w
  ∧ written (snd r)
    = (if decide (fmt = u "parquet") then
         match parse_to_parquet_files self (block_sizes w) rows pc with
         | Ok files => (dataset_dir out (q + 1), files) :: written w
         | Raise _ => written w
         end
       else written w).
Proof.
  intros Hd Hs Hz. cbv zeta. unfold uncompress_and_parse.
  rewrite bind_run, (extract_csv_run _ _ _ Hd), Hs. cbv zeta. rewrite Hz.
  remember (next_name w) as q eqn:Hq.
  set (w1 := mkWorld _ _ _ _ _ _ _ _).
  assert (disk w1 !! q = Some (Data rows)) as Hq1 by (subst w1; simpl; by rewrite lookup_insert_eq).
  assert (delete q (disk w1) = delete q (disk w)) as Hdel
    by (subst w1; simpl; by rewrite !delete_insert_eq).
  pose proof (remove_if_exists_run q w1 ltac:(eauto)) as Hrm.
  unfold try_finally.
  destruct (decide (fmt = u "df")) as [->|Hdf].
  - rewrite decide_False by (vm_compute; discriminate).
    rewrite bind_run, (parse_to_df_ok _ _ _ _ Hq1).
    destruct (parse_to_df self rows) as [df|e].
    + unfold mret, M_ret. cbv beta iota. rewrite Hrm. simpl. by rewrite !delete_insert_eq.
    + cbv beta iota. rewrite Hrm. simpl. by rewrite !delete_insert_eq.
  - destruct (decide (fmt = u "parquet")) as [->|Hpq].
    + rewrite bind_run.
      destruct out as [[|c d]|]; unfold dataset_dir, mkdtemp; unfold mret, M_ret;
        cbv beta iota zeta; rewrite bind_run;
        (rewrite (parse_to_parquet_dataset_ok _ _ _ _ _ rows) by (simpl; exact Hq1));
        subst w1; simpl;
        (destruct (parse_to_parquet_files self (block_sizes w) rows pc) as [files|e];
         cbv beta iota;
         (rewrite remove_if_exists_run by (simpl; rewrite ?lookup_insert_eq; eauto));
         simpl; by rewrite !delete_insert_eq).
    + unfold raise. cbv beta iota. rewrite Hrm. simpl. by rewrite !delete_insert_eq.
Qed.

(** Download, convert, clean up, when the site serves an archive whose
    selected member holds [rows]. *)
Lemma download_and_parse_run writer url token file_id fmt out pc w rows :
  serves w url token file_id rows →
  let p := next_name w in
  let r := (zip_path ← _download_zip url token file_id;
            try_finally (uncompress_and_parse writer zip_path fmt out pc)
                        (remove_if_exists zip_path)) w in
  fst r
  = (if decide (fmt = u "df") then
       match parse_to_df writer rows with Ok df => Ok (Frame df) | Raise e => Raise e end
     else if decide (fmt = u "parquet") then
       match parse_to_parquet_files writer (block_sizes w) rows pc with
       | Ok _ => Ok (Dir (dataset_dir out (p + 2)))
       | Raise e => Raise e
       end
     else Raise (ValueError (u "Invalid format. Use 'df' or 'parquet'.")))
  ∧ disk (snd r) = delete p (delete (p + 1) (disk w))
  ∧ created (snd r) = (p + 1) :: p :: created w
  ∧ removed (snd r) = p :: (p + 1) :: removed w
  ∧ written (snd r)
    = (if decide (fmt = u "parquet") then
         match parse_to_parquet_files writer (block_sizes w) rows pc with
         | Ok files => (dataset_dir out (p + 2), files) :: written w
         | Raise _ => written w
         end
       else written w).
Proof.
  intros (members & target & Hp & Hs & Hz). cbv zeta.
  rewrite bind_run, (download_zip_run _ _ _ _ _ Hp).
  remember (next_name w) as p eqn:Heqp.
  set (w2 := mkWorld _ _ _ _ _ _ _ _).
  assert (disk w2 !! p = Some (Archive members)) as Hd
    by (subst w2; simpl; by rewrite lookup_insert_eq).
  pose proof (uncompress_and_parse_run writer p fmt out pc w2 members target rows Hd Hs Hz)
    as Hu.
  cbv zeta in Hu. unfold try_finally.
  destruct (uncompress_and_parse writer p fmt out pc w2) as [r1 w3].
  simpl in Hu. destruct Hu as (F & D & C & R & W).
  replace (p + 1 + 1) with (p + 2) in F, W by lia.
  assert (p + 1 ≠ p) as Hne by lia.
  rewrite remove_if_exists_run
    by (rewrite D, lookup_delete_ne, !lookup_insert_eq by done; eauto).
  simpl. rewrite D, C, R, W, F.
  split; [done|]. split; [|done].
  rewrite (delete_delete _ p (p + 1)), !delete_insert_eq. apply delete_delete.
Qed.



Lemma page_with_token_run w url soup token :
  page_with_token w url soup token → _get_page_and_token url w = (Ok (soup, token), w).
Proof.
  intros (pg & inp & Hg & Hs & <- & Hf & Hv). by eapply get_page_and_token_ok.
Qed.

Lemma download_and_process_run capitalize writer prefecture fmt out pc w soup token catalog
    file_id :
  page_with_token w ZENKEN_URL soup token →
  _fetch_zenken_file_ids soup = Ok catalog →
  catalog !! capitalize prefecture = Some file_id →
  _download_and_process capitalize writer prefecture fmt out pc w
  = (zip_path ← _download_zip ZENKEN_URL token file_id;
     try_finally (uncompress_and_parse writer zip_path fmt out pc)
                 (remove_if_exists zip_path)) w.
Proof.
  intros Hp Hc Hk. unfold _download_and_process.
  rewrite bind_run, (page_with_token_run _ _ _ _ Hp). cbv beta iota.
  rewrite bind_run. unfold lift. rewrite Hc. cbv beta iota zeta. by rewrite Hk.
Qed.






(** ** Unknown formats *)

Lemma fails_bind {A B} (m : M A) (k : A → M B) :
  (∀ a, fails (k a)) → fails (m ≫= k).
Proof.
  intros Hk w. rewrite bind_run. destruct (m w) as [[a|e] w1]; [apply Hk|by exists e].
Qed.

Lemma fails_try_finally {A} (body : M A) (cleanup : M unit) :
  fails body → fails (try_finally body cleanup).
Proof.
  intros Hb w. unfold try_finally. destruct (Hb w) as [e He].
  destruct (body w) as [r w1]. simpl in He. subst r.
  destruct (cleanup w1) as [[[]|e'] w2]; eauto.
Qed.

Lemma fails_raise {A} (e : exn) : fails (@raise A e).
Proof. intros w. by exists e. Qed.

Lemma fails_uncompress_and_parse self zip_path fmt out pc :
  ¬ known_format fmt → fails (uncompress_and_parse self zip_path fmt out pc).
Proof.
  intros Hf. unfold uncompress_and_parse. apply fails_bind. intros q.
  apply fails_try_finally.
  destruct (decide (fmt = u "df")) as [->|_]; [destruct Hf; by left|].
  destruct (decide (fmt = u "parquet")) as [->|_]; [destruct Hf; by right|].
  apply fails_raise.
Qed.

Lemma loader_init_world w : snd (ZipLoader_init w) = w.
Proof.
  unfold ZipLoader_init. rewrite bind_run. unfold get_world. cbv beta iota.
  destruct (http_get w ZENKEN_URL) as [pg|]; [|done].
  rewrite bind_run. unfold lift. destruct (_load_token (markup pg)); [|done].
  rewrite bind_run. by destruct (_fetch_file_ids (markup pg)).
Qed.

(** X10.  A format other than "df" and "parquet" never yields a result,
    from the client or from the earlier loader.  The earlier loader rejects
    it right after reading the page, with the state as it was: nothing is
    downloaded.  The client rejects it only at the end: on a site that
    serves the region's archive the archive is downloaded and its data
    member extracted, two temporary files are created and removed, and then
    the [ValueError] is raised. *)
Theorem unknown_format_rejected (capitalize : pystr → pystr) (format : pystr) :
  ¬ known_format format →
  (∀ writer prefecture output_dir partition_cols,
     fails (download_prefecture capitalize writer prefecture format output_dir
              partition_cols))
  ∧ (∀ writer date output_dir partition_cols,
       fails (download_diff writer date format output_dir partition_cols))
  ∧ (∀ header pd_tokenize pq_write prefecture,
       fails (load capitalize header pd_tokenize pq_write prefecture format)
       ∧ ∀ w, snd (load capitalize header pd_tokenize pq_write prefecture format w) = w)
  ∧ (∀ writer prefecture output_dir partition_cols w soup token catalog file_id rows,
       page_with_token w ZENKEN_URL soup token →
       _fetch_zenken_file_ids soup = Ok catalog →
       catalog !! capitalize prefecture = Some file_id →
       serves w ZENKEN_URL token file_id rows →
       let r := download_prefecture capitalize writer prefecture format output_dir
                  partition_cols w in
       fst r = Raise (ValueError (u "Invalid format. Use 'df' or 'parquet'."))
       ∧ created (snd r) = (next_name w + 1) :: next_name w :: created w
       ∧ removed (snd r) = next_name w :: (next_name w + 1) :: removed w).
Proof.
  intros Hf.
  assert (format ≠ u "df") as Hdf by (intros ->; apply Hf; by left).
  assert (format ≠ u "parquet") as Hpq by (intros ->; apply Hf; by right).
  split; [|split; [|split]].
  - intros writer prefecture output_dir partition_cols.
    unfold download_prefecture, _download_and_process.
    apply fails_bind. intros [soup token]. apply fails_bind. intros catalog. cbv zeta.
    destruct (catalog !! capitalize prefecture); [|apply fails_raise].
    apply fails_bind. intros zip_path.
    by apply fails_try_finally, fails_uncompress_and_parse.
  - intros writer date output_dir partition_cols. unfold download_diff.
    apply fails_bind. intros [soup token]. apply fails_bind. intros file_id.
    apply fails_bind. intros zip_path.
    by apply fails_try_finally, fails_uncompress_and_parse.
  - intros header pd_tokenize pq_write prefecture. unfold load.
    destruct (decide (format = u "df")) as [?|_]; [done|].
    destruct (decide (format = u "parquet")) as [?|_]; [done|]. split.
    + apply fails_bind. intros loader. apply fails_raise.
    + intros w. rewrite bind_run. pose proof (loader_init_world w) as Hw.
      by destruct (ZipLoader_init w) as [[loader|e] w1].
  - intros writer prefecture output_dir partition_cols w soup token catalog file_id rows
      Hp Hc Hk Hs. cbv zeta. unfold download_prefecture.
    rewrite (download_and_process_run _ _ _ _ _ _ _ _ _ _ _ Hp Hc Hk).
    destruct (download_and_parse_run writer ZENKEN_URL token file_id format
                output_dir partition_cols w rows Hs) as (F & _ & C & R & _).
    rewrite decide_False in F by done. rewrite decide_False in F by done. done.
Qed.

Lemma unknown_format_rejected_witness :
  fst (download_prefecture capitalize_ascii (new_writer sample_header) (u "shimane")
         (u "csv") None None sample_world)
  = Raise (ValueError (u "Invalid format. Use 'df' or 'parquet'."))
  ∧ snd (load capitalize_ascii sample_header plain_tokenize plain_pq_write (u "shimane")
           (u "csv") sample_world)
    = sample_world.
Proof.
  assert (¬ known_format (u "csv")) as Hf
    by (intros [H|H]; vm_compute in H; discriminate).
  assert (page_with_token sample_world ZENKEN_URL zenken_page (u "3f9a1c")) as Hp.
  { exists {| status_ok := true; markup := zenken_page |}, (token_input (u "3f9a1c")).
    repeat split; vm_compute; reflexivity. }
  assert (_fetch_zenken_file_ids zenken_page = Ok sample_catalog) as Hc
    by (vm_compute; reflexivity).
  assert (sample_catalog !! capitalize_ascii (u "shimane") = Some (u "00042")) as Hk
    by (vm_compute; reflexivity).
  assert (serves sample_world ZENKEN_URL (u "3f9a1c") (u "00042") sample_rows) as Hs.
  { exists [(u "readme.txt", Some []); (u "32_shimane_all.csv", Some sample_rows)],
           (u "32_shimane_all.csv").
    repeat split; vm_compute; reflexivity. }
  destruct (unknown_format_rejected capitalize_ascii (u "csv") Hf) as (_ & _ & HL & HC).
  split.
  - exact (proj1 (HC (new_writer sample_header) (u "shimane") None None sample_world
                     zenken_page (u "3f9a1c") sample_catalog (u "00042") sample_rows
                     Hp Hc Hk Hs)).
  - exact (proj2 (HL sample_header plain_tokenize plain_pq_write (u "shimane")) sample_world).
Defined.

(** ** The earlier loader end to end *)









(** ** What a dataset holds *)









(** ** Files of other calls *)

Lemma safe_bind {A B} n (Q : A → Prop) (R : B → Prop) (m : M A) (k : A → M B) :
  safe n Q m → (∀ a, Q a → safe n R (k a)) → safe n R (m ≫= k).
Proof.
  intros Hm Hk w Hw. rewrite bind_run. destruct (Hm w Hw) as (H1 & H2 & H3).
  destruct (m w) as [[a|e] w1]; simpl in *; [|done].
  destruct (Hk a (H3 a eq_refl) w1 H1) as (K1 & K2 & K3).
  split; [done|]. split; [|done]. intros p Hp. by rewrite K2, H2.
Qed.

Lemma safe_weaken {A} n (Q R : A → Prop) (m : M A) :
  safe n Q m → (∀ a, Q a → R a) → safe n R m.
Proof.
  intros Hm HQ w Hw. destruct (Hm w Hw) as (H1 & H2 & H3). eauto.
Qed.

Lemma safe_try_finally {A} n (Q : A → Prop) (body : M A) (cleanup : M unit) :
  safe n Q body → safe n (fun _ => True) cleanup → safe n Q (try_finally body cleanup).
Proof.
  intros Hb Hc w Hw. unfold try_finally. destruct (Hb w Hw) as (H1 & H2 & H3).
  destruct (body w) as [r w1]. simpl in *. destruct (Hc w1 H1) as (K1 & K2 & _).
  destruct (cleanup w1) as [[[]|e] w2]; simpl in *.
  - split; [done|]. split; [|done]. intros p Hp. by rewrite K2, H2.
  - split; [done|]. split; [|done]. intros p Hp. by rewrite K2, H2.
Qed.

Lemma safe_ret {A} n (Q : A → Prop) (a : A) : Q a → safe n Q (mret a).
Proof. intros Ha w Hw. repeat split; [done|]. by intros ? [= <-]. Qed.

Lemma safe_raise {A} n (Q : A → Prop) (e : exn) : safe n Q (raise e).
Proof. intros w Hw. by repeat split. Qed.

Lemma safe_lift {A} n (r : result A) : safe n (fun _ => True) (lift r).
Proof. intros w Hw. by repeat split. Qed.

Lemma safe_get_world n : safe n (fun _ => True) get_world.
Proof. intros w Hw. by repeat split. Qed.

Lemma safe_read_file n p : safe n (fun _ => True) (read_file p).
Proof. intros w Hw. unfold read_file. by destruct (disk w !! p). Qed.

Lemma safe_record_written n d files : safe n (fun _ => True) (record_written d files).
Proof. intros w Hw. by repeat split. Qed.

Lemma safe_mkdtemp n : safe n (fun _ => True) mkdtemp.
Proof. intros w Hw. unfold mkdtemp. simpl. split; [lia|]. by split. Qed.

Lemma safe_NamedTemporaryFile n : safe n (fun a => n ≤ a) NamedTemporaryFile.
Proof.
  intros w Hw. unfold NamedTemporaryFile. simpl. split; [lia|]. split.
  - intros p Hp. apply lookup_insert_ne. lia.
  - by intros a [= <-].
Qed.

Lemma safe_write_file n p c : n ≤ p → safe n (fun _ => True) (write_file p c).
Proof.
  intros Hn w Hw. unfold write_file. simpl. split; [done|]. split; [|done].
  intros q Hq. apply lookup_insert_ne. lia.
Qed.

Lemma safe_remove_if_exists n p : n ≤ p → safe n (fun _ => True) (remove_if_exists p).
Proof.
  intros Hn w Hw. unfold remove_if_exists. rewrite bind_run. unfold path_exists.
  cbv beta iota. destruct (bool_decide (is_Some (disk w !! p))); [|done].
  unfold os_remove. destruct (disk w !! p); [|done]. simpl.
  split; [done|]. split; [|done]. intros q Hq. apply lookup_delete_ne. lia.
Qed.

Lemma safe_get_page_and_token n url : safe n (fun _ => True) (_get_page_and_token url).
Proof.
  intros w Hw. rewrite get_page_and_token_world. by repeat split.
Qed.

Lemma safe_download_zip n url token file_id :
  safe n (fun a => n ≤ a) (_download_zip url token file_id).
Proof.
  unfold _download_zip. apply (safe_bind n (fun _ => True)); [apply safe_get_world|].
  intros w _. destruct (http_post w url token file_id) as [|c complete]; [apply safe_raise|].
  apply (safe_bind n (fun a => n ≤ a)); [apply safe_NamedTemporaryFile|].
  intros tmp Htmp. destruct complete; [|apply safe_raise].
  apply (safe_bind n (fun _ => True)); [by apply safe_write_file|].
  intros _ _. by apply safe_ret.
Qed.

Lemma safe_extract_csv n zip_path : safe n (fun a => n ≤ a) (extract_csv zip_path).
Proof.
  unfold extract_csv, ZipFile.
  apply (safe_bind n (fun _ => True)).
  { apply (safe_bind n (fun _ => True)); [apply safe_read_file|].
    intros c _. destruct c; [by apply safe_ret|apply safe_raise..]. }
  intros zf _. apply (safe_bind n (fun _ => True)); [apply safe_lift|].
  intros target _. apply (safe_bind n (fun a => n ≤ a)); [apply safe_NamedTemporaryFile|].
  intros tmp Htmp. destruct (zip_entry target zf) as [[rows|]|]; [|apply safe_raise..].
  apply (safe_bind n (fun _ => True)); [by apply safe_write_file|].
  intros _ _. by apply safe_ret.
Qed.

Lemma safe_read_rows n p : safe n (fun _ => True) (read_rows p).
Proof.
  unfold read_rows. apply (safe_bind n (fun _ => True)); [apply safe_read_file|].
  intros c _. destruct c; [apply safe_raise|by apply safe_ret|apply safe_raise].
Qed.

Lemma safe_uncompress_and_parse n self zip_path fmt out pc :
  safe n (fun _ => True) (uncompress_and_parse self zip_path fmt out pc).
Proof.
  unfold uncompress_and_parse.
  apply (safe_bind n (fun a => n ≤ a)); [apply safe_extract_csv|].
  intros q Hq. apply safe_try_finally; [|by apply safe_remove_if_exists].
  destruct (decide (fmt = u "df")); [|destruct (decide (fmt = u "parquet"))].
  - apply (safe_bind n (fun _ => True)); [|intros; by apply safe_ret].
    unfold _parse_to_df. apply (safe_bind n (fun _ => True)); [apply safe_read_rows|].
    intros; apply safe_lift.
  - apply (safe_bind n (fun _ => True)).
    { destruct out as [[|c d]|]; [apply safe_mkdtemp|by apply safe_ret|apply safe_mkdtemp]. }
    intros d _. apply (safe_bind n (fun _ => True)); [|intros; by apply safe_ret].
    unfold _parse_to_parquet_dataset.
    apply (safe_bind n (fun _ => True)); [apply safe_read_rows|]. intros rows _.
    apply (safe_bind n (fun _ => True)); [apply safe_get_world|]. intros w _.
    apply (safe_bind n (fun _ => True)); [apply safe_lift|]. intros files _.
    apply (safe_bind n (fun _ => True)); [apply safe_record_written|]. intros _ _.
    by apply safe_ret.
  - apply safe_raise.
Qed.

Lemma safe_download_and_parse n writer url token file_id fmt out pc :
  safe n (fun _ => True)
    (zip_path ← _download_zip url token file_id;
     try_finally (uncompress_and_parse writer zip_path fmt out pc)
                 (remove_if_exists zip_path)).
Proof.
  apply (safe_bind n (fun a => n ≤ a)); [apply safe_download_zip|].
  intros zip_path Hz.
  apply safe_try_finally; [apply safe_uncompress_and_parse|by apply safe_remove_if_exists].
Qed.

Lemma safe_download_and_process n capitalize writer prefecture fmt out pc :
  safe n (fun _ => True) (_download_and_process capitalize writer prefecture fmt out pc).
Proof.
  unfold _download_and_process.
  apply (safe_bind n (fun _ => True)); [apply safe_get_page_and_token|].
  intros [soup token] _. apply (safe_bind n (fun _ => True)); [apply safe_lift|].
  intros catalog _. cbv zeta.
  destruct (catalog !! capitalize prefecture); [|apply safe_raise].
  apply safe_download_and_parse.
Qed.

Lemma safe_download_diff n writer date fmt out pc :
  safe n (fun _ => True) (download_diff writer date fmt out pc).
Proof.
  unfold download_diff.
  apply (safe_bind n (fun _ => True)); [apply safe_get_page_and_token|].
  intros [soup token] _. apply (safe_bind n (fun _ => True)); [apply safe_lift|].
  intros file_id _. apply safe_download_and_parse.
Qed.

Lemma safe_zip_load n capitalize self prefecture :
  safe n (fun _ => True) (_zip_load capitalize self prefecture).
Proof.
  unfold _zip_load, loader_download_zip, _uncompress_file.
  destruct (pref_list self !! capitalize prefecture); [|apply safe_raise].
  apply (safe_bind n (fun a => n ≤ a)); [apply safe_download_zip|].
  intros zip_path _. apply (safe_weaken n (fun a => n ≤ a)); [apply safe_extract_csv|done].
Qed.

Lemma safe_load n capitalize header pd_tokenize pq_write prefecture format :
  safe n (fun _ => True) (load capitalize header pd_tokenize pq_write prefecture format).
Proof.
  unfold load. apply (safe_bind n (fun _ => True)).
  { intros w Hw. rewrite loader_init_world. by repeat split. }
  intros self _.
  destruct (decide (format = u "df")); [|destruct (decide (format = u "parquet"))].
  - apply (safe_bind n (fun _ => True)); [|intros; by apply safe_ret].
    unfold to_df. apply (safe_bind n (fun _ => True)); [apply safe_zip_load|].
    intros csv_path _. unfold _convert_csv_2_df.
    apply (safe_bind n (fun _ => True)); [apply safe_read_file|].
    intros c _. destruct c; [apply safe_raise|apply safe_lift|apply safe_raise].
  - apply (safe_bind n (fun _ => True)); [|intros; by apply safe_ret].
    unfold to_parquet. apply (safe_bind n (fun _ => True)); [apply safe_zip_load|].
    intros csv_path _. unfold _convert_csv_2_parquet.
    apply (safe_bind n (fun _ => True)); [apply safe_read_file|].
    intros c _. destruct c; [apply safe_raise| |apply safe_raise].
    apply (safe_bind n (fun _ => True)); [apply safe_lift|]. intros cells _.
    apply (safe_bind n (fun _ => True)); [apply safe_lift|]. intros file _.
    apply (safe_bind n (fun _ => True)); [apply safe_record_written|]. intros _ _.
    by apply safe_ret.
  - apply safe_raise.
Qed.

(** X14.  No call touches a file of another call.  Whatever the site
    answers and however the call ends, a file that was there before the
    call, under a name handed out earlier, holds after the call what it held
    before: the client and the earlier loader write and remove only the
    temporary files they create themselves. *)
Theorem calls_touch_only_their_files (capitalize : pystr → pystr) (w : world) (p : N) :
  p < next_name w →
  (∀ writer prefecture format output_dir partition_cols,
     disk (snd (download_prefecture capitalize writer prefecture format output_dir
                  partition_cols w)) !! p = disk w !! p)
  ∧ (∀ writer format output_dir partition_cols,
       disk (snd (download_all capitalize writer format output_dir partition_cols w)) !! p
       = disk w !! p)
  ∧ (∀ writer date format output_dir partition_cols,
       disk (snd (download_diff writer date format output_dir partition_cols w)) !! p
       = disk w !! p)
  ∧ (∀ header pd_tokenize pq_write prefecture format,
       disk (snd (load capitalize header pd_tokenize pq_write prefecture format w)) !! p
       = disk w !! p).
Proof.
  intros Hp. split; [|split; [|split]].
  - intros writer prefecture format output_dir partition_cols.
    by apply (safe_download_and_process (next_name w) capitalize writer prefecture format
                output_dir partition_cols w).
  - intros writer format output_dir partition_cols.
    by apply (safe_download_and_process (next_name w) capitalize writer (u "All") format
                output_dir partition_cols w).
  - intros writer date format output_dir partition_cols.
    by apply (safe_download_diff (next_name w) writer date format output_dir
                partition_cols w).
  - intros header pd_tokenize pq_write prefecture format.
    by apply (safe_load (next_name w) capitalize header pd_tokenize pq_write prefecture
                format w).
Qed.

Lemma calls_touch_only_their_files_witness :
  disk (snd (download_prefecture capitalize_ascii (new_writer sample_header) (u "shimane")
               (u "df") None None world_with_leftover)) !! 0
  = Some (Data sample_rows).
Proof.
  assert (0 < next_name world_with_leftover) as Hp by (vm_compute; reflexivity).
  destruct (calls_touch_only_their_files capitalize_ascii world_with_leftover 0 Hp)
    as (H & _).
  rewrite H. vm_compute. reflexivity.
Defined.
